(** * CivicSync: the client-side synchronisation and mutation model of [src/app.js]

    The React component [App] keeps a local feed view ([issues]), a local copy
    of the profile aggregate ([userProfile]) and the current identity
    ([user]); its event handlers talk to a hosted document store and an
    authentication service.  This development embeds

    - the JavaScript expressions the handlers evaluate ([x || 0], [s.trim()],
      [Array.prototype.sort] with a comparator, object spread),
    - the store and the authentication service as an explicit state with an
      outcome for every remote call,
    - every handler ([handleLogout], [addIssue], [handleDelete],
      [handleUpvote], [ReportIssueModal.handleSubmit], the authentication
      and snapshot listeners, [fetchUserProfile]) as a program in a
      state-and-exception monad that records the order of local updates and
      remote calls,

    and proves what the handlers do. *)

From Stdlib Require Import ZArith String Ascii PrimFloat Lia.
From HB Require Import structures.
From mathcomp Require Import ssreflect ssrfun ssrbool eqtype ssrnat seq path.

Set Implicit Arguments.
Unset Strict Implicit.
Unset Printing Implicit Defensive.
Set Warnings "-rewrite-rw".

(** Decidable equality of the base types, for [==] and [\in]. *)
HB.instance Definition _ := hasDecEq.Build string String.eqb_spec.
HB.instance Definition _ := hasDecEq.Build Z Z.eqb_spec.

Declare Scope js_scope.
Delimit Scope js_scope with js.

(** ** JavaScript expressions used by the handlers *)

Module JS.

(** A property of an object that may be missing is an [option]; [None] is
    JavaScript's [undefined].  Numbers are the integer counters and the
    millisecond timestamps of the application, as [Z].  A [string] holds the
    UTF-8 encoding of the JavaScript string. *)

(** [x || d] on a number: [undefined] and [0] are falsy. *)
Definition or_num (x : option Z) (d : Z) : Z :=
  match x with
  | Some n => if (n =? 0)%Z then d else n
  | None => d
  end.

(** Truthiness of a string property: [undefined] and [''] are falsy. *)
Definition truthy (x : option string) : bool :=
  match x with
  | Some s => s != EmptyString
  | None => false
  end.

(** [a || b] on string properties. *)
Definition or_str (a b : option string) : option string :=
  if truthy a then a else b.

(** [xs || []]: every array is truthy, the empty one too. *)
Definition or_arr (T : Type) (x : option (seq T)) : seq T :=
  match x with
  | Some xs => xs
  | None => [::]
  end.

(** The white space and line terminators that [String.prototype.trim]
    strips, each code point by its UTF-8 bytes:
    U+0009 to U+000D and U+0020 (one byte);
    U+00A0 (C2 A0);
    U+1680 (E1 9A 80); U+2000 to U+200A (E2 80 80 to E2 80 8A);
    U+2028 and U+2029 (E2 80 A8, E2 80 A9); U+202F (E2 80 AF);
    U+205F (E2 81 9F); U+3000 (E3 80 80); U+FEFF (EF BB BF). *)
Definition is_white_space (bytes : seq nat) : bool :=
  match bytes with
  | [:: a] => [|| a == 9, a == 10, a == 11, a == 12, a == 13 | a == 32]
  | [:: a; b] => (a == 194) && (b == 160)
  | [:: a; b; c] =>
      [|| [&& a == 225, b == 154 & c == 128],
          [&& a == 226, b == 128
            & [|| (128 <= c) && (c <= 138), c == 168, c == 169 | c == 175]],
          [&& a == 226, b == 129 & c == 159],
          [&& a == 227, b == 128 & c == 128]
        | [&& a == 239, b == 187 & c == 191]]
  | _ => false
  end.

(** Drops the white-space code points at the front of a byte sequence.  With
    [back] the sequence is a reversed string, read from its end: a code
    point's bytes then come last byte first. *)
Fixpoint strip (back : bool) (l : seq ascii) : seq ascii :=
  let white bs :=
    is_white_space [seq nat_of_ascii c | c <- if back then rev bs else bs] in
  match l with
  | [::] => [::]
  | a :: r1 =>
      if white [:: a] then strip back r1 else
      match r1 with
      | [::] => l
      | b :: r2 =>
          if white [:: a; b] then strip back r2 else
          match r2 with
          | [::] => l
          | c :: r3 => if white [:: a; b; c] then strip back r3 else l
          end
      end
  end.

Definition trimStart (s : string) : string :=
  string_of_list_ascii (strip false (list_ascii_of_string s)).

Definition trimEnd (s : string) : string :=
  string_of_list_ascii (rev (strip true (rev (list_ascii_of_string s)))).

Definition trim (s : string) : string := trimEnd (trimStart s).

(** [arr.sort(cmp)]: the sort of ECMAScript is stable and puts [a] before [b]
    when [cmp(a, b) < 0]; elements with [cmp(a, b) = 0] keep their order.
    The library's [sort] is a stable merge sort. *)
Definition sort_le (T : Type) (cmp : T -> T -> Z) : rel T :=
  fun a b => (cmp a b <=? 0)%Z.

Definition array_sort (T : Type) (cmp : T -> T -> Z) (s : seq T) : seq T :=
  sort (sort_le cmp) s.

End JS.

(** ** Data model *)

(** The identity handed over by the authentication service. *)
Record User := mkUser { uid : string; email : option string }.

Record Coordinates := mkCoordinates { lat : float; lng : float }.

(** An issue record as a JavaScript object: the draft built by the form, the
    data of a stored document and an element of the local feed view all have
    this shape.  [createdAt] holds the timestamp's [toMillis()]. *)
Record Issue := mkIssue {
  id : option string;
  title : option string;
  description : option string;
  location : option string;
  coordinates : option Coordinates;
  imageUrl : option string;
  photoUrl : option string;
  videoUrl : option string;
  audioUrl : option string;
  status : option string;
  upvotes : option Z;
  createdAt : option Z;
  reporterId : option string
}.

(** The profile aggregate, the local copy [userProfile] and the stored one. *)
Record Profile := mkProfile {
  points : option Z;
  badges : option (seq string);
  reportedIssues : option Z;
  name : option string
}.

(** [{ points: 0, badges: [], reportedIssues: 0 }] *)
Definition zeroProfile : Profile :=
  mkProfile (Some 0%Z) (Some [::]) (Some 0%Z) None.

Inductive AuthView := LoginView | SignupView | GuestView.

(** The state of the [App] component (the [useState] cells its handlers use). *)
Record AppState := mkAppState {
  user : option User;
  isLoading : bool;
  issues : seq Issue;
  isSubmitting : bool;
  error : option string;
  showForm : bool;
  userProfile : Profile;
  authView : AuthView
}.

(** The initial values of the [useState] cells. *)
Definition initialApp : AppState :=
  mkAppState None true [::] false None false zeroProfile LoginView.

(** The state setters. *)
Inductive Setter :=
| SetUser (u : option User)
| SetIsLoading (b : bool)
| SetIssues (l : seq Issue)
| SetIsSubmitting (b : bool)
| SetError (e : option string)
| SetShowForm (b : bool)
| SetUserProfile (p : Profile)
| SetAuthView (v : AuthView).

Definition apply_setter (x : Setter) (s : AppState) : AppState :=
  match x with
  | SetUser u =>
      mkAppState u (isLoading s) (issues s) (isSubmitting s) (error s)
        (showForm s) (userProfile s) (authView s)
  | SetIsLoading b =>
      mkAppState (user s) b (issues s) (isSubmitting s) (error s)
        (showForm s) (userProfile s) (authView s)
  | SetIssues l =>
      mkAppState (user s) (isLoading s) l (isSubmitting s) (error s)
        (showForm s) (userProfile s) (authView s)
  | SetIsSubmitting b =>
      mkAppState (user s) (isLoading s) (issues s) b (error s)
        (showForm s) (userProfile s) (authView s)
  | SetError e =>
      mkAppState (user s) (isLoading s) (issues s) (isSubmitting s) e
        (showForm s) (userProfile s) (authView s)
  | SetShowForm b =>
      mkAppState (user s) (isLoading s) (issues s) (isSubmitting s) (error s)
        b (userProfile s) (authView s)
  | SetUserProfile p =>
      mkAppState (user s) (isLoading s) (issues s) (isSubmitting s) (error s)
        (showForm s) p (authView s)
  | SetAuthView v =>
      mkAppState (user s) (isLoading s) (issues s) (isSubmitting s) (error s)
        (showForm s) (userProfile s) v
  end.

(** ** The remote collaborators *)

(** The document store (the issue collection and the profile collection,
    each a list of documents keyed by document id) and the session of the
    authentication service. *)
Record Remote := mkRemote {
  issueDocs : seq (string * Issue);
  profileDocs : seq (string * Profile);
  session : option User
}.

(** The remote calls the handlers issue. *)
Inductive Call :=
| AddIssueDoc (data : Issue)
    (* addDoc(collection(db, issuesCollectionPath), data) *)
| DeleteIssueDoc (docId : string)
    (* deleteDoc(doc(db, issuesCollectionPath, docId)) *)
| IncrementUpvotes (docId : string) (n : Z)
    (* updateDoc(issueRef, { upvotes: increment(n) }) *)
| IncrementProfile (u : string) (dpoints dreports : Z)
    (* updateDoc(profileRef, { points: increment(..), reportedIssues: increment(..) }) *)
| MergeProfile (u : string) (dpoints dreports : Z) (newBadges : seq string)
    (* setDoc(profileRef, { points: increment(..), reportedIssues: increment(..),
                            badges: newBadges }, { merge: true }) *)
| GetProfile (u : string)
    (* getDoc(profileRef) *)
| SetProfile (u : string) (p : Profile)
    (* setDoc(profileRef, p) *)
| SignOut.
    (* signOut(auth) *)

Fixpoint lookup (T : Type) (k : string) (docs : seq (string * T)) : option T :=
  match docs with
  | [::] => None
  | (k', v) :: r => if k' == k then Some v else lookup k r
  end.

Fixpoint modify (T : Type) (k : string) (f : T -> T) (docs : seq (string * T))
  : seq (string * T) :=
  match docs with
  | [::] => [::]
  | (k', v) :: r => if k' == k then (k', f v) :: r else (k', v) :: modify k f r
  end.

(** [setDoc]: replaces the document when it exists, creates it otherwise. *)
Definition upsert (T : Type) (k : string) (f : option T -> T)
    (docs : seq (string * T)) : seq (string * T) :=
  match lookup k docs with
  | Some _ => modify k (fun v => f (Some v)) docs
  | None => rcons docs (k, f None)
  end.

(** [increment(n)] applied to a stored field: a missing field counts as 0. *)
Definition increment (n : Z) (field : option Z) : option Z :=
  match field with
  | Some v => Some (v + n)%Z
  | None => Some n
  end.

Definition incrementUpvotes (n : Z) (i : Issue) : Issue :=
  mkIssue (id i) (title i) (description i) (location i) (coordinates i)
    (imageUrl i) (photoUrl i) (videoUrl i) (audioUrl i) (status i)
    (increment n (upvotes i)) (createdAt i) (reporterId i).

Definition incrementProfile (dp dr : Z) (p : Profile) : Profile :=
  mkProfile (increment dp (points p)) (badges p)
    (increment dr (reportedIssues p)) (name p).

(** The merge of [{ points: increment(dp), reportedIssues: increment(dr),
    badges: bs }] into a profile document that may not exist yet. *)
Definition mergeProfile (dp dr : Z) (bs : seq string) (p : option Profile)
  : Profile :=
  match p with
  | Some q =>
      mkProfile (increment dp (points q)) (Some bs)
        (increment dr (reportedIssues q)) (name q)
  | None => mkProfile (Some dp) (Some bs) (Some dr) None
  end.

(** What a call does to the store when it reaches it; [None] is a rejection
    by the store itself ([updateDoc] needs an existing document).  [newId] is
    the document id the store generates for [addDoc]. *)
Definition serve (newId : string) (c : Call) (r : Remote) : option Remote :=
  let ds := issueDocs r in
  let ps := profileDocs r in
  let se := session r in
  match c with
  | AddIssueDoc data => Some (mkRemote (rcons ds (newId, data)) ps se)
  | DeleteIssueDoc k => Some (mkRemote [seq d <- ds | d.1 != k] ps se)
  | IncrementUpvotes k n =>
      if lookup k ds is Some _
      then Some (mkRemote (modify k (incrementUpvotes n) ds) ps se)
      else None
  | IncrementProfile u dp dr =>
      if lookup u ps is Some _
      then Some (mkRemote ds (modify u (incrementProfile dp dr) ps) se)
      else None
  | MergeProfile u dp dr bs =>
      Some (mkRemote ds (upsert u (mergeProfile dp dr bs) ps) se)
  | GetProfile _ => Some r
  | SetProfile u p => Some (mkRemote ds (upsert u (fun _ => p) ps) se)
  | SignOut => Some (mkRemote ds ps None)
  end.

(** What the handlers cannot control: whether each remote call gets through
    (in the order the calls are issued; a call beyond the list gets through),
    the ids the store generates, and the clock read by [new Date()]. *)
Record Env := mkEnv {
  outcomes : seq bool;
  autoIds : seq string;
  now : Z
}.

(** What a handler does, in order. *)
Inductive Event :=
| Local (x : Setter)
| Remote_call (c : Call) (ok : bool).

Record World := mkWorld {
  app : AppState;
  remote : Remote;
  env : Env;
  trace : seq Event
}.

(** ** Handlers as programs *)

Inductive Exn := RemoteError (c : Call).

Inductive Result (A : Type) :=
| Val (a : A)
| Throw (e : Exn).

Arguments Throw {A} e.

Definition M (A : Type) : Type := World -> Result A * World.

Definition ret (A : Type) (a : A) : M A := fun w => (Val a, w).

Definition bind (A B : Type) (m : M A) (k : A -> M B) : M B :=
  fun w =>
    match m w with
    | (Val a, w') => k a w'
    | (Throw e, w') => (Throw e, w')
    end.

Notation "x <-- m ;; k" := (bind m (fun x => k))
  (at level 61, m at next level, right associativity) : js_scope.
Notation "m ;; k" := (bind m (fun _ => k))
  (at level 61, right associativity) : js_scope.

Local Open Scope js_scope.

(** [try { m } catch (err) { h err }] *)
Definition try_catch (A : Type) (m : M A) (h : Exn -> M A) : M A :=
  fun w =>
    match m w with
    | (Val a, w') => (Val a, w')
    | (Throw e, w') => h e w'
    end.

(** [try { m } finally { f }] *)
Definition finally (A : Type) (m : M A) (f : M unit) : M A :=
  fun w =>
    match m w with
    | (r, w') =>
        match f w' with
        | (Val _, w'') => (r, w'')
        | (Throw e, w'') => (Throw e, w'')
        end
    end.

(** Reading the state cells: a handler sees, through its closure, the values
    the cells had when it was created, which is the state it starts in. *)
Definition get_app : M AppState := fun w => (Val (app w), w).

(** Calling a state setter.  The update is applied at once; React applies it
    when the handler next yields, before any awaited call completes. *)
Definition set (x : Setter) : M unit :=
  fun w =>
    (Val tt, mkWorld (apply_setter x (app w)) (remote w) (env w)
               (rcons (trace w) (Local x))).

(** [setIssues(prevIssues => f prevIssues)] *)
Definition update_issues (f : seq Issue -> seq Issue) : M unit :=
  fun w => set (SetIssues (f (issues (app w)))) w.

(** [new Date()] *)
Definition new_Date : M Z := fun w => (Val (now (env w)), w).

(** [await c]: the call is issued; it returns when it gets through and the
    store accepts it, and throws otherwise. *)
Definition await (c : Call) : M unit :=
  fun w =>
    let ok := head true (outcomes (env w)) in
    let ids := autoIds (env w) in
    let ids' := if c is AddIssueDoc _ then behead ids else ids in
    let e' := mkEnv (behead (outcomes (env w))) ids' (now (env w)) in
    match (if ok then serve (head EmptyString ids) c (remote w) else None) with
    | Some r' =>
        (Val tt, mkWorld (app w) r' e' (rcons (trace w) (Remote_call c true)))
    | None =>
        (Throw (RemoteError c),
         mkWorld (app w) (remote w) e' (rcons (trace w) (Remote_call c false)))
    end.

(** [await getDoc(profileRef)], with [docSnap.exists()] and [docSnap.data()]
    as an [option]. *)
Definition getDoc (u : string) : M (option Profile) :=
  await (GetProfile u) ;;
  fun w => (Val (lookup u (profileDocs (remote w))), w).

(** *** The authentication listener *)

Definition onAuthStateChanged (currentUser : option User) : M unit :=
  set (SetUser currentUser) ;;
  set (SetIsLoading false).

(** *** The profile effect: [fetchUserProfile] *)

Definition fetchUserProfile (u : User) : M unit :=
  docSnap <-- getDoc (uid u) ;;
  match docSnap with
  | Some data => set (SetUserProfile data)
  | None =>
      let initialProfile :=
        mkProfile (Some 0%Z) (Some [::]) (Some 0%Z)
          (JS.or_str (email u) (Some "Guest User"%string)) in
      await (SetProfile (uid u) initialProfile) ;;
      set (SetUserProfile initialProfile)
  end.

(** *** The snapshot listener of the issue collection *)

(** [{ id: doc.id, ...doc.data() }]: a field [id] of the data overrides. *)
Definition withId (d : string * Issue) : Issue :=
  let i := d.2 in
  mkIssue (if id i is Some k then Some k else Some d.1)
    (title i) (description i) (location i) (coordinates i)
    (imageUrl i) (photoUrl i) (videoUrl i) (audioUrl i) (status i)
    (upvotes i) (createdAt i) (reporterId i).

(** The comparator given to [issuesData.sort]. *)
Definition compareIssues (a b : Issue) : Z :=
  let upvoteDiff := (JS.or_num (upvotes b) 0 - JS.or_num (upvotes a) 0)%Z in
  if (upvoteDiff != 0)%Z then upvoteDiff
  else (JS.or_num (createdAt b) 0 - JS.or_num (createdAt a) 0)%Z.

Definition feedView (docs : seq (string * Issue)) : seq Issue :=
  JS.array_sort compareIssues [seq withId d | d <- docs].

Definition onIssuesSnapshot (docs : seq (string * Issue)) : M unit :=
  set (SetIssues (feedView docs)).

(** *** [handleLogout] *)

Definition handleLogout : M unit :=
  await SignOut ;;
  set (SetUser None) ;;
  set (SetIssues [::]) ;;
  set (SetUserProfile zeroProfile) ;;
  set (SetAuthView LoginView).

(** *** [addIssue] *)

(** [{ ...issue, status: 'Acknowledged', upvotes: 0, createdAt: new Date(),
      reporterId: user.uid }] *)
Definition newIssueRecord (issue : Issue) (t : Z) (u : User) : Issue :=
  mkIssue (id issue) (title issue) (description issue) (location issue)
    (coordinates issue) (imageUrl issue) (photoUrl issue) (videoUrl issue)
    (audioUrl issue)
    (Some "Acknowledged"%string) (Some 0%Z) (Some t) (Some (uid u)).

(** [if (count >= threshold && !bs.includes(badge)) bs.push(badge)] *)
Definition pushBadge (count threshold : Z) (badge : string) (bs : seq string)
  : seq string :=
  if (threshold <=? count)%Z && (badge \notin bs) then rcons bs badge else bs.

Definition newReportCount (p : Profile) : Z :=
  (JS.or_num (reportedIssues p) 0 + 1)%Z.

Definition newBadges (p : Profile) : seq string :=
  pushBadge (newReportCount p) 5 "Neighborhood Hero"
    (pushBadge (newReportCount p) 1 "First Report" (JS.or_arr (badges p))).

Definition addIssue (issue : Issue) : M unit :=
  s <-- get_app ;;
  match user s with
  | None => set (SetError (Some "You must be signed in."%string))
  | Some u =>
      set (SetIsSubmitting true) ;;
      set (SetError None) ;;
      finally
        (try_catch
           (t <-- new_Date ;;
            await (AddIssueDoc (newIssueRecord issue t u)) ;;
            await (MergeProfile (uid u) 10 1 (newBadges (userProfile s))) ;;
            set (SetShowForm false))
           (fun _ => set (SetError (Some "Failed to submit issue."%string))))
        (set (SetIsSubmitting false))
  end.

(** *** [handleDelete] *)

(** [if (!user || !issueId) return;] then the optimistic removal, then both
    remote calls inside one [try]. *)

Definition deleteFailed : string :=
  "Failed to delete the report. Please refresh and try again.".

Definition handleDelete (issueId : option string) : M unit :=
  s <-- get_app ;;
  match user s, issueId with
  | Some u, Some k =>
      if ~~ JS.truthy issueId then ret tt else
      let originalIssues := issues s in
      update_issues (filter (fun issue => id issue != Some k)) ;;
      try_catch
        (await (DeleteIssueDoc k) ;;
         await (IncrementProfile (uid u) (-10) (-1)))
        (fun _ =>
           set (SetError (Some deleteFailed)) ;;
           set (SetIssues originalIssues))
  | _, _ => ret tt
  end.

(** *** [handleUpvote] *)

(** The [catch] only logs to the console. *)

Definition handleUpvote (k : string) : M unit :=
  s <-- get_app ;;
  match user s with
  | None => ret tt
  | Some _ =>
      try_catch (await (IncrementUpvotes k 1)) (fun _ => ret tt)
  end.

(** *** [ReportIssueModal.handleSubmit] *)

Inductive MediaKind := Photo | Video | Audio.

(** The [media] cell: [{ type: null, dataUrl: null }] or a captured medium. *)
Inductive Media :=
| NoMedia
| Captured (kind : MediaKind) (dataUrl : option string).

Record Form := mkForm {
  f_title : string;
  f_description : string;
  f_location : string;
  f_coordinates : option Coordinates;
  f_media : Media;
  formError : string
}.

Definition noMediaPlaceholder : string :=
  "https://placehold.co/600x400/EEE/31343C?text=No+Media+Provided".

(** [issueData[`${media.type}Url`] = media.dataUrl], or the placeholder. *)
Definition issueData (f : Form) : Issue :=
  let base img pho vid aud :=
    mkIssue None (Some (f_title f)) (Some (f_description f))
      (Some (f_location f)) (f_coordinates f) img pho vid aud
      None None None None in
  match f_media f with
  | Captured kind url =>
      if JS.truthy url then
        match kind with
        | Photo => base None url None None
        | Video => base None None url None
        | Audio => base None None None url
        end
      else base (Some noMediaPlaceholder) None None None
  | NoMedia => base (Some noMediaPlaceholder) None None None
  end.

Definition blank (s : string) : bool := JS.trim s == EmptyString.

Definition handleSubmit (f : Form) : M Form :=
  if [|| blank (f_title f), blank (f_description f) | blank (f_location f)]
  then
    ret (mkForm (f_title f) (f_description f) (f_location f)
           (f_coordinates f) (f_media f) "All fields are required.")
  else
    addIssue (issueData f) ;; ret f.

(** *** [IssueCard]: the main media of a card *)

Definition mainMediaUrl (issue : Issue) : option string :=
  JS.or_str (JS.or_str (imageUrl issue) (photoUrl issue)) (videoUrl issue).

Definition mainMediaType (issue : Issue) : string :=
  if JS.truthy (videoUrl issue) then "video"%string else "photo"%string.

(** What the card shows in its main slot: [mainMediaUrl && <button ...>]. *)
Definition primaryMedia (issue : Issue) : option (string * string) :=
  if JS.truthy (mainMediaUrl issue)
  then Some (mainMediaType issue, odflt EmptyString (mainMediaUrl issue))
  else None.

(** ** The words of the specification *)

(** The sort keys: a missing [upvotes] counts as 0, a missing [createdAt] as
    the epoch. *)
Definition upvotesKey (r : Issue) : Z := odflt 0%Z (upvotes r).
Definition createdAtKey (r : Issue) : Z := odflt 0%Z (createdAt r).

(** [a] may stand before [b] in the feed: more upvotes, or as many and not
    created earlier. *)
Definition feedOrder (a b : Issue) : bool :=
  (upvotesKey b <? upvotesKey a)%Z
  || ((upvotesKey a == upvotesKey b) && (createdAtKey b <=? createdAtKey a)%Z).

(** The records with upvotes [u] and creation time [c]. *)
Definition hasKeys (u c : Z) (r : Issue) : bool :=
  (upvotesKey r == u) && (createdAtKey r == c).

(** The remote calls of a trace, in the order they were issued, each with
    whether it succeeded. *)
Definition remoteCalls (tr : seq Event) : seq (Call * bool) :=
  pmap (fun e => if e is Remote_call c ok then Some (c, ok) else None) tr.

(** The records handed to [addDoc] in a trace. *)
Definition written (tr : seq Event) : seq Issue :=
  pmap (fun e => if e is Remote_call (AddIssueDoc d) _ then Some d else None) tr.

(** The zero-state of the profile aggregate. *)
Definition isZeroState (p : Profile) : bool :=
  [&& points p == Some 0%Z, badges p == Some [::]
    & reportedIssues p == Some 0%Z].

(** The dependent local state is cleared: no identity, an empty feed view,
    the profile aggregate in its zero-state. *)
Definition isCleared (s : AppState) : bool :=
  [&& ~~ isSome (user s), nilp (issues s) & isZeroState (userProfile s)].

(** Whether the next remote call, and the one after it, get through. *)
Definition nextCallOk (w : World) : bool := head true (outcomes (env w)).
Definition secondCallOk (w : World) : bool :=
  head true (behead (outcomes (env w))).

(** The badges stored for identity [v] (none without a profile document). *)
Definition storedBadges (v : string) (r : Remote) : seq string :=
  if lookup v (profileDocs r) is Some p then JS.or_arr (badges p) else [::].

(** ** Runs *)

(** The handlers run one after the other, each on the world the previous one
    left; an exception that leaves a handler ends that handler only. *)
Definition play (events : seq (M unit)) (w : World) : World :=
  foldl (fun w' handler => (handler w').2) w events.

(** The listener receives the current documents of the issue collection. *)
Definition deliverSnapshot : M unit :=
  fun w => onIssuesSnapshot (issueDocs (remote w)) w.

(** A freshly mounted component over a given store. *)
Definition freshWorld (store : Remote) (os : seq bool) : World :=
  mkWorld initialApp store
    (mkEnv os [:: "i3"; "i4"; "i5"; "i6"; "i7"; "i8"]%string 300) [::].

(** ** Sample states *)

Definition alice : User := mkUser "alice" (Some "alice@example.org"%string).

(** The stored data of a report of Alice. *)
Definition reportData (u c : Z) : Issue :=
  mkIssue None (Some "Pothole"%string) (Some "Deep pothole"%string)
    (Some "Main St"%string) None
    (Some noMediaPlaceholder) None None None
    (Some "Acknowledged"%string) (Some u) (Some c) (Some "alice"%string).

Definition aliceProfile (pts : Z) (bs : seq string) (n : Z) : Profile :=
  mkProfile (Some pts) (Some bs) (Some n) (Some "alice@example.org"%string).

(** A store with two reports of Alice and her profile [p]. *)
Definition aliceStore (p : Profile) : Remote :=
  mkRemote
    [:: ("i2"%string, reportData 0 200); ("i1"%string, reportData 3 100)]
    [:: ("alice"%string, p)] (Some alice).

(** Alice has signed in: the authentication listener has fired, the profile
    effect has run ([loads] tells whether its [getDoc] got through) and the
    first snapshot of the issue collection has arrived; [os] are the
    outcomes of the remote calls to come. *)
Definition aliceSession (loads : bool) (p : Profile) (os : seq bool) : World :=
  play [:: onAuthStateChanged (Some alice); fetchUserProfile alice;
           deliverSnapshot]
    (freshWorld (aliceStore p) (loads :: os)).

(** Nobody has signed in. *)
Definition signedOutWorld : World :=
  play [:: onAuthStateChanged None]
    (freshWorld (aliceStore (aliceProfile 10 [:: "First Report"%string] 1)) [::]).

(** Records of the store for the media slot of a card. *)
Definition mediaRecord (img pho vid aud : option string) : Issue :=
  mkIssue (Some "i9"%string) (Some "Noise"%string) (Some "Loud"%string)
    (Some "Elm St"%string) None img pho vid aud
    (Some "Acknowledged"%string) (Some 0%Z) (Some 400%Z) (Some "alice"%string).

(** A filled-in and a blank report form. *)
Definition filledForm : Form :=
  mkForm "Pothole" "Deep pothole" "Main St" None
    (Captured Video (Some "data:video/webm;base64,AAAA"%string)) "".

Definition blankForm : Form :=
  mkForm "Pothole" "   " "Main St" None NoMedia "".

(** A draft that already carries a status, upvotes, a creation time and a
    reporter. *)
Definition tamperedDraft : Issue :=
  mkIssue None (Some "Pothole"%string) (Some "Deep pothole"%string)
    (Some "Main St"%string) None (Some noMediaPlaceholder) None None None
    (Some "Resolved"%string) (Some 99%Z) (Some 1%Z) (Some "mallory"%string).

(** ** The authentication handlers and the rest of the presentation code *)

(** The calls to the authentication service and what it answers: the
    identity, or the [message] of the error it throws. *)
Inductive AuthCall :=
| SignInWithEmailAndPassword (email password : string)
| CreateUserWithEmailAndPassword (email password : string)
| SignInWithCustomToken (token : string)
| SignInAnonymously.

Inductive AuthReply :=
| Granted (u : User)
| Refused (message : string).

Section Auth.

(** The authentication service, as the handlers see it. *)
Variable service : AuthCall -> AuthReply.

(** [try { await c } catch (err) { ... err.message ... }]: the service opens
    the session, or the [catch] receives the message. *)
Definition authenticate (c : AuthCall) : M (option string) :=
  fun w =>
    match service c with
    | Granted u =>
        (Val None,
         mkWorld (app w)
           (mkRemote (issueDocs (remote w)) (profileDocs (remote w)) (Some u))
           (env w) (trace w))
    | Refused message => (Val (Some message), w)
    end.

Definition handleLogin (email password : string) : M unit :=
  set (SetIsLoading true) ;;
  set (SetError None) ;;
  finally
    (err <-- authenticate (SignInWithEmailAndPassword email password) ;;
     match err with
     | None => ret tt
     | Some message => set (SetError (Some message))
     end)
    (set (SetIsLoading false)).

Definition handleSignup (email password : string) : M unit :=
  set (SetIsLoading true) ;;
  set (SetError None) ;;
  finally
    (err <-- authenticate (CreateUserWithEmailAndPassword email password) ;;
     match err with
     | None => ret tt
     | Some message => set (SetError (Some message))
     end)
    (set (SetIsLoading false)).

(** [initialAuthToken] is [__initial_auth_token], [None] when it is not
    defined. *)
Definition handleGuestLogin (initialAuthToken : option string) : M unit :=
  set (SetIsLoading true) ;;
  err <-- authenticate
            (match initialAuthToken with
             | Some token => SignInWithCustomToken token
             | None => SignInAnonymously
             end) ;;
  match err with
  | None => ret tt
  | Some _ =>
      set (SetError (Some "Guest authentication failed."%string)) ;;
      set (SetIsLoading false)
  end.

(** [LoginScreen.handleSubmit]: [authView === 'login' ? onLogin : onSignup]. *)
Definition loginScreenSubmit (email password : string) : M unit :=
  s <-- get_app ;;
  match authView s with
  | LoginView => handleLogin email password
  | _ => handleSignup email password
  end.

End Auth.

(** The profile that [fetchUserProfile] stores at a first sign-in. *)
Definition initialProfile (u : User) : Profile :=
  mkProfile (Some 0%Z) (Some [::]) (Some 0%Z)
    (JS.or_str (email u) (Some "Guest User"%string)).

(** The message of [addIssue]'s [catch]. *)
Definition submitFailed : string := "Failed to submit issue.".

(** [IssueFeed]: [isOwner={issue.reporterId === currentUserId}]. *)
Definition isOwner (issue : Issue) (currentUserId : string) : bool :=
  reporterId issue == Some currentUserId.

(** ** Sessions *)

(** What a signed-in user and the store can make happen. *)
Inductive Action :=
| Submit (issue : Issue)
| Delete (issueId : option string)
| Upvote (k : string)
| Snapshot.

Definition perform (a : Action) : M unit :=
  match a with
  | Submit issue => addIssue issue
  | Delete issueId => handleDelete issueId
  | Upvote k => handleUpvote k
  | Snapshot => deliverSnapshot
  end.

Definition session_run (actions : seq Action) (w : World) : World :=
  play [seq perform a | a <- actions] w.

(** The badges a report count has earned, in the order they are pushed. *)
Definition earnedBadges (count : Z) : seq string :=
  (if (1 <=? count)%Z then [:: "First Report"%string] else [::])
  ++ (if (5 <=? count)%Z then [:: "Neighborhood Hero"%string] else [::]).

(** The stored data has no field [id] of its own (the form never sets one). *)
Definition noOwnId (d : string * Issue) : bool := ~~ isSome (id d.2).

(** Every remote call to come gets through. *)
Definition allCallsOk (w : World) : bool :=
  all (fun ok : bool => ok) (outcomes (env w)).

(** * Properties *)

(** ** The feed order *)

Lemma or_num_odflt (x : option Z) : JS.or_num x 0 = odflt 0%Z x.
Proof. by case: x => [n|] //=; case: Z.eqb_spec. Qed.

Lemma compareIssues_feedOrder (a b : Issue) :
  (compareIssues a b <=? 0)%Z = feedOrder a b.
Proof.
rewrite /compareIssues /feedOrder !or_num_odflt -/(upvotesKey a) -/(upvotesKey b)
  -/(createdAtKey a) -/(createdAtKey b).
case: eqP => [e0|ne0] /=.
- have e : upvotesKey a = upvotesKey b by lia.
  rewrite e eqxx Z.ltb_irrefl /=.
  by apply/Z.leb_spec0/Z.leb_spec0; lia.
- have -> : (upvotesKey a == upvotesKey b) = false by apply/eqP; lia.
  rewrite orbF.
  by apply/Z.leb_spec0/Z.ltb_spec0; lia.
Qed.

Lemma feedOrder_total : total feedOrder.
Proof.
move=> a b; rewrite /feedOrder.
case: (Z.ltb_spec0 (upvotesKey b) (upvotesKey a)) => //= h1.
case: (Z.ltb_spec0 (upvotesKey a) (upvotesKey b)) => /= h2; first by rewrite orbT.
have e : upvotesKey a = upvotesKey b by lia.
rewrite e eqxx /=.
by case: Z.leb_spec0 => //= h3; apply/Z.leb_spec0; lia.
Qed.

Lemma feedOrder_trans : transitive feedOrder.
Proof.
move=> b a c; rewrite /feedOrder.
case/orP => [/Z.ltb_spec0 h1|/andP[/eqP e1 /Z.leb_spec0 h1]];
case/orP => [/Z.ltb_spec0 h2|/andP[/eqP e2 /Z.leb_spec0 h2]].
- by apply/orP; left; apply/Z.ltb_spec0; lia.
- by apply/orP; left; apply/Z.ltb_spec0; lia.
- by apply/orP; left; apply/Z.ltb_spec0; lia.
- apply/orP; right; rewrite e1 e2 eqxx /=.
  by apply/Z.leb_spec0; lia.
Qed.

Lemma sort_le_feedOrder : JS.sort_le compareIssues =2 feedOrder.
Proof. by move=> a b; rewrite /JS.sort_le compareIssues_feedOrder. Qed.

Lemma sort_le_total : total (JS.sort_le compareIssues).
Proof. by move=> a b; rewrite !sort_le_feedOrder feedOrder_total. Qed.

Lemma sort_le_trans : transitive (JS.sort_le compareIssues).
Proof. by move=> b a c; rewrite !sort_le_feedOrder; apply: feedOrder_trans. Qed.

Lemma hasKeys_pairwise (u c : Z) (s : seq Issue) :
  all (hasKeys u c) s -> pairwise feedOrder s.
Proof.
elim: s => //= a s IH /andP[ha hs]; rewrite IH // andbT.
apply: sub_all hs => b; move: ha; rewrite /hasKeys /feedOrder.
move=> /andP[/eqP -> /eqP ->] /andP[/eqP -> /eqP ->].
by rewrite eqxx Z.leb_refl orbT.
Qed.

Lemma feedOrder_keys (a b : Issue) :
  feedOrder a b -> feedOrder b a ->
  hasKeys (upvotesKey a) (createdAtKey a) b.
Proof.
rewrite /feedOrder /hasKeys.
case/orP => [/Z.ltb_spec0 h1|/andP[/eqP e1 /Z.leb_spec0 h1]];
case/orP => [/Z.ltb_spec0 h2|/andP[/eqP e2 /Z.leb_spec0 h2]]; try lia.
by rewrite e2 eqxx /=; apply/eqP; lia.
Qed.

Lemma hasKeys_own (a : Issue) : hasKeys (upvotesKey a) (createdAtKey a) a.
Proof. by rewrite /hasKeys !eqxx. Qed.

(** The first record of a key class stands, in feed order, after the head of
    the list. *)
Lemma first_of_class (u c : Z) (y x : Issue) (t r : seq Issue) :
  pairwise feedOrder (y :: t) ->
  [seq i <- y :: t | hasKeys u c i] = x :: r ->
  feedOrder y x.
Proof.
move=> /= /andP[hy _]; case: (hasKeys u c y) => [[<- _]|e].
  by have := feedOrder_total y y; rewrite orbb.
have : all (feedOrder y) [seq i <- t | hasKeys u c i].
  by rewrite all_filter; apply: sub_all hy => i h /=; rewrite h implybT.
by rewrite e /= => /andP[].
Qed.

(** Feed order and the order inside the key classes determine the list. *)
Lemma feed_order_unique (s1 s2 : seq Issue) :
  pairwise feedOrder s1 -> pairwise feedOrder s2 ->
  (forall u c : Z,
     [seq i <- s1 | hasKeys u c i] = [seq i <- s2 | hasKeys u c i]) ->
  s1 = s2.
Proof.
elim: s1 s2 => [|x t1 IH] [|y t2] // p1 p2 hf.
- by have := hf (upvotesKey y) (createdAtKey y); rewrite /= hasKeys_own.
- by have := hf (upvotesKey x) (createdAtKey x); rewrite /= hasKeys_own.
have hyx : feedOrder y x.
  apply: (@first_of_class (upvotesKey x) (createdAtKey x) y x t2 _ p2).
  by rewrite -hf /= hasKeys_own.
have hxy : feedOrder x y.
  apply: (@first_of_class (upvotesKey y) (createdAtKey y) x y t1 _ p1).
  by rewrite hf /= hasKeys_own.
have e : x = y.
  have := hf (upvotesKey x) (createdAtKey x).
  by rewrite /= hasKeys_own (feedOrder_keys hxy hyx) => -[].
rewrite -{y hyx hxy}e in p2 hf *; congr (_ :: _).
move: p1 p2 => /= /andP[_ p1] /andP[_ p2]; apply: IH => // u c.
by have := hf u c; rewrite /=; case: (hasKeys u c x) => // -[].
Qed.

(** The sort puts the records in feed order, keeps every record, and keeps the
    order of the records that have the same keys. *)
Lemma array_sort_feed (s : seq Issue) :
  [/\ forall p : pred Issue, count p (JS.array_sort compareIssues s) = count p s,
      pairwise feedOrder (JS.array_sort compareIssues s)
    & forall u c : Z,
        [seq r <- JS.array_sort compareIssues s | hasKeys u c r]
        = [seq r <- s | hasKeys u c r]].
Proof.
split=> [p|| u c]; rewrite /JS.array_sort.
- exact: count_sort.
- apply: (@sub_pairwise _ (JS.sort_le compareIssues)).
    by move=> a b; rewrite sort_le_feedOrder.
  rewrite -(sorted_pairwise sort_le_trans).
  exact/sort_sorted/sort_le_total.
- rewrite (filter_sort sort_le_total sort_le_trans).
  apply: pairwise_sort; apply: (@sub_pairwise _ feedOrder).
    by move=> a b; rewrite sort_le_feedOrder.
  by apply: (@hasKeys_pairwise u c); apply: filter_all.
Qed.

(** C1. For every snapshot handed to the listener of the issue collection,
    the local feed view becomes the snapshot's records ([{ id, ...data }] in
    snapshot order) sorted by upvotes descending, then by [createdAt]
    descending, a missing [upvotes] or [createdAt] counting as 0: it has the
    same records as the snapshot, every record is in feed order with every
    later one, and the records with equal upvotes and [createdAt] are in
    their snapshot order; it is the only list in feed order that keeps the
    snapshot order of the records with equal keys. *)
Theorem feed_view_sorted_stable (docs : seq (string * Issue)) (w : World) :
  let input := [seq withId d | d <- docs] in
  let view := issues (app (onIssuesSnapshot docs w).2) in
  [/\ (onIssuesSnapshot docs w).1 = Val tt,
      forall p : pred Issue, count p view = count p input,
      pairwise feedOrder view,
      forall u c : Z,
        [seq r <- view | hasKeys u c r] = [seq r <- input | hasKeys u c r]
    & forall s : seq Issue,
        pairwise feedOrder s ->
        (forall u c : Z,
           [seq r <- s | hasKeys u c r] = [seq r <- input | hasKeys u c r]) ->
        s = view].
Proof.
move=> input view; have [hc hp hs] := array_sort_feed input.
split=> // s ps hf; apply: feed_order_unique => // u c.
by rewrite hf -hs.
Qed.

(** ** Running a handler *)

(** Unfolds the monad so that a handler becomes a case analysis on the
    outcomes of its remote calls. *)
Ltac run :=
  rewrite /bind /finally /try_catch /await /update_issues /set /new_Date /=.

Lemma remoteCalls_rcons (tr : seq Event) (e : Event) :
  remoteCalls (rcons tr e) =
  remoteCalls tr ++ (if e is Remote_call c ok then [:: (c, ok)] else [::]).
Proof. by rewrite /remoteCalls -cats1 pmap_cat /=; case: e. Qed.

Lemma written_rcons (tr : seq Event) (e : Event) :
  written (rcons tr e) =
  written tr ++ (if e is Remote_call (AddIssueDoc d) _ then [:: d] else [::]).
Proof. by rewrite /written -cats1 pmap_cat /=; case: e => // -[]. Qed.

(** A call that does not get through throws and leaves the store alone. *)
Lemma await_rejected (c : Call) (w : World) :
  ~~ nextCallOk w ->
  await c w =
    (Throw (RemoteError c),
     mkWorld (app w) (remote w)
       (mkEnv (behead (outcomes (env w)))
          (if c is AddIssueDoc _ then behead (autoIds (env w))
           else autoIds (env w))
          (now (env w)))
       (rcons (trace w) (Remote_call c false))).
Proof. by rewrite /await /nextCallOk => /negbTE ->. Qed.

(** ** Guards *)

Lemma handleDelete_missing_id (w : World) (issueId : option string) :
  ~~ JS.truthy issueId -> handleDelete issueId w = (Val tt, w).
Proof.
rewrite /handleDelete /bind /=.
case: (user _) => [u|] //; case: issueId => [k|] //= h.
by rewrite h.
Qed.

(** C10. Without an identity, upvote and delete return at once and leave the
    whole world as it is: no remote call, no change of the local feed view,
    no error set; the same holds for a delete without an issue id. *)
Theorem guards_are_noops (w : World) (k : string) (issueId : option string) :
  (user (app w) = None ->
   handleUpvote k w = (Val tt, w) /\ handleDelete issueId w = (Val tt, w))
  /\ (~~ JS.truthy issueId -> handleDelete issueId w = (Val tt, w)).
Proof.
split; last exact: handleDelete_missing_id.
by move=> hu; rewrite /handleUpvote /handleDelete /bind /= hu.
Qed.

(** ** Sign-out *)

(** C7 (amended). Sign-out clears the dependent local state (the current
    identity, the local feed view, the profile aggregate back to its
    zero-state) and shows the login view once the remote sign-out call has
    succeeded; when that call fails the handler ends with its error and the
    local state is left as it was. *)
Theorem logout_clears_after_remote_signout (w : World) :
  let w' := (handleLogout w).2 in
  if nextCallOk w
  then [/\ (handleLogout w).1 = Val tt, isCleared (app w'),
           authView (app w') = LoginView & session (remote w') = None]
  else [/\ (handleLogout w).1 = Throw (RemoteError SignOut),
           app w' = app w & remote w' = remote w].
Proof.
case h: (nextCallOk w) => /=.
- by rewrite /handleLogout; run; move: h; rewrite /nextCallOk => ->.
- by rewrite /handleLogout /bind (await_rejected _ (negbT h)).
Qed.

(** C7 (as stated) fails: Alice is signed in with her feed loaded and the
    remote sign-out fails; her identity and the feed view are still there. *)
Lemma logout_not_cleared_when_signout_fails :
  let w := aliceSession true (aliceProfile 10 [:: "First Report"%string] 1)
             [:: false] in
  let w' := (handleLogout w).2 in
  [/\ remoteCalls (trace w') = rcons (remoteCalls (trace w)) (SignOut, false),
      isCleared (app w') = false,
      user (app w') = Some alice
    & [seq id issue | issue <- issues (app w')]
      = [:: Some "i1"%string; Some "i2"%string]].
Proof. by []. Qed.

(** ** The document collections *)

Lemma lookup_modify (T : Type) (k k' : string) (f : T -> T)
    (docs : seq (string * T)) :
  lookup k' (modify k f docs) =
  if k' == k then omap f (lookup k docs) else lookup k' docs.
Proof.
elim: docs => [|[k0 v] docs IH] /=; first by case: ifP.
case: (k0 =P k) => [->|ne] /=.
  by rewrite eq_sym; case: eqP.
rewrite IH; case: (k0 =P k') => [e|//].
by case: eqP => // e'; case: ne; rewrite e e'.
Qed.

Lemma lookup_rcons (T : Type) (k k' : string) (v : T) (docs : seq (string * T)) :
  lookup k' (rcons docs (k, v)) =
  if lookup k' docs is Some x then Some x
  else if k == k' then Some v else None.
Proof. by elim: docs => [|[k0 v0] docs IH] //=; case: ifP. Qed.

Lemma lookup_upsert (T : Type) (k k' : string) (f : option T -> T)
    (docs : seq (string * T)) :
  lookup k' (upsert k f docs) =
  if k' == k then Some (f (lookup k docs)) else lookup k' docs.
Proof.
rewrite /upsert; case e: (lookup k docs) => [v|].
  by rewrite lookup_modify e.
rewrite lookup_rcons eq_sym; case: eqP => [->|_]; first by rewrite e.
by case: (lookup k' docs).
Qed.

(** ** Delete *)

Section Delete.

Variables (w : World) (u : User) (k : string).
Hypothesis signedIn : user (app w) = Some u.
Hypothesis hasId : k != EmptyString.

(** Past its guard, the handler removes the record from the local view and
    then runs its [try] block. *)
Lemma handleDelete_run :
  handleDelete (Some k) w =
  try_catch
    (await (DeleteIssueDoc k) ;; await (IncrementProfile (uid u) (-10) (-1)))
    (fun _ => set (SetError (Some deleteFailed)) ;; set (SetIssues (issues (app w))))
    (update_issues (filter (fun issue => id issue != Some k)) w).2.
Proof. by rewrite /handleDelete /bind /= signedIn /= hasId /= signedIn. Qed.


(** The profile decrement is issued only after a successful remote delete;
    when the decrement fails, the handler's [catch] runs all the same: the
    view is set back although the document is gone. *)
Lemma handleDelete_calls :
  let w' := (handleDelete (Some k) w).2 in
  let decremented :=
    secondCallOk w && isSome (lookup (uid u) (profileDocs (remote w))) in
  remoteCalls (trace w') =
  remoteCalls (trace w) ++
    (if nextCallOk w
     then [:: (DeleteIssueDoc k, true);
              (IncrementProfile (uid u) (-10) (-1), decremented)]
     else [:: (DeleteIssueDoc k, false)])
  /\ (nextCallOk w -> ~~ decremented ->
      [/\ issues (app w') = issues (app w),
          error (app w') = Some deleteFailed
        & issueDocs (remote w') = [seq d <- issueDocs (remote w) | d.1 != k]]).
Proof.
rewrite /= handleDelete_run; run; rewrite -/(nextCallOk w).
case: (nextCallOk w) => /=; last by rewrite !remoteCalls_rcons /= !cats0.
rewrite -/(secondCallOk w).
case: (secondCallOk w) => /=; last by rewrite !remoteCalls_rcons /= !cats0 -catA.
by case: (lookup _ _) => [p|] /=; rewrite !remoteCalls_rcons /= !cats0 -catA.
Qed.

(** What the delete does to the stored profile when both calls succeed. *)
Lemma handleDelete_profile (p : Profile) :
  lookup (uid u) (profileDocs (remote w)) = Some p ->
  nextCallOk w -> secondCallOk w ->
  let w' := (handleDelete (Some k) w).2 in
  lookup (uid u) (profileDocs (remote w')) = Some (incrementProfile (-10) (-1) p)
  /\ userProfile (app w') = userProfile (app w).
Proof.
move=> hp h1 h2; rewrite /= handleDelete_run; run.
rewrite -/(nextCallOk w) h1 /= -/(secondCallOk w) h2 hp /=.
by rewrite lookup_modify eqxx hp.
Qed.

End Delete.

(** C2 (the code at the failing input). Alice, signed in with her feed
    loaded, deletes her report [i1]; the remote delete succeeds and the
    profile decrement that follows fails.  The document is gone from the
    store, yet the local feed view is set back to the list that still holds
    the record, under the message that the delete failed. *)
Theorem delete_decrement_failure_restores_view :
  let w := aliceSession true (aliceProfile 20 [:: "First Report"%string] 2)
             [:: true; false] in
  let w' := (handleDelete (Some "i1"%string) w).2 in
  [/\ remoteCalls (trace w') =
        remoteCalls (trace w) ++
        [:: (DeleteIssueDoc "i1", true);
            (IncrementProfile "alice" (-10) (-1), false)],
      [seq d.1 | d <- issueDocs (remote w')] = [:: "i2"%string],
      [seq id issue | issue <- issues (app w')]
        = [:: Some "i1"%string; Some "i2"%string],
      issues (app w') = issues (app w)
    & error (app w') = Some deleteFailed].
Proof. by []. Qed.

(** ** Submit *)

Lemma increment_or_num (x : option Z) :
  increment 1 x = Some (JS.or_num x 0 + 1)%Z.
Proof. by case: x => [v|] //=; case: Z.eqb_spec => // ->. Qed.

Lemma mem_pushBadge (count threshold : Z) (badge b : string) (bs : seq string) :
  (b \in pushBadge count threshold badge bs) =
  (b \in bs) || ((b == badge) && (threshold <=? count)%Z).
Proof.
rewrite /pushBadge; case: Z.leb_spec0 => _ /=; last by rewrite andbF orbF.
rewrite andbT; case h: (badge \in bs) => /=.
  by case: eqP => [->|]; rewrite ?h ?orbF.
by rewrite mem_rcons inE orbC.
Qed.

(** The badges a submit computes: those of the profile it reads, and the ones
    its count has earned. *)
Lemma mem_newBadges (p : Profile) (b : string) :
  (b \in newBadges p) =
  [|| b \in JS.or_arr (badges p),
      (b == "First Report"%string) && (1 <=? newReportCount p)%Z
    | (b == "Neighborhood Hero"%string) && (5 <=? newReportCount p)%Z].
Proof. by rewrite /newBadges !mem_pushBadge orbA. Qed.

Section Submit.

Variables (w : World) (u : User) (issue : Issue).
Hypothesis signedIn : user (app w) = Some u.

(** Exactly one record is handed to [addDoc], whatever the calls' outcomes. *)
Lemma addIssue_written :
  written (trace (addIssue issue w).2) =
  written (trace w) ++ [:: newIssueRecord issue (now (env w)) u].
Proof.
rewrite /addIssue; run; rewrite signedIn /= -/(nextCallOk w).
case: (nextCallOk w) => /=; last by rewrite !written_rcons /= !cats0.
rewrite -/(secondCallOk w).
by case: (secondCallOk w) => /=; rewrite !written_rcons /= !cats0.
Qed.

(** C6. For every draft that [addIssue] accepts (an identity is signed in),
    whatever the draft holds in these fields, exactly one record is handed to
    the store and it has status "Acknowledged", 0 upvotes, the time of the
    submission as [createdAt] and the caller's uid as [reporterId]; when the
    write gets through, that record is the new document of the collection. *)
Theorem submitted_record_is_forced :
  let w' := (addIssue issue w).2 in
  let data := newIssueRecord issue (now (env w)) u in
  [/\ written (trace w') = written (trace w) ++ [:: data],
      [/\ status data = Some "Acknowledged"%string, upvotes data = Some 0%Z,
          createdAt data = Some (now (env w))
        & reporterId data = Some (uid u)]
    & nextCallOk w ->
      issueDocs (remote w') =
      rcons (issueDocs (remote w)) (head EmptyString (autoIds (env w)), data)].
Proof.
split=> //; first exact: addIssue_written.
rewrite /addIssue; run; rewrite signedIn /= -/(nextCallOk w) => -> /=.
by rewrite -/(secondCallOk w); case: (secondCallOk w).
Qed.

(** What an accepted report does to the stored profiles: the two counters of
    the caller's profile are incremented and its badges are replaced by
    [newBadges] of the local profile copy. *)
Lemma addIssue_profile (v : string) :
  nextCallOk w -> secondCallOk w ->
  lookup v (profileDocs (remote (addIssue issue w).2)) =
  if v == uid u
  then Some (mergeProfile 10 1 (newBadges (userProfile (app w)))
               (lookup (uid u) (profileDocs (remote w))))
  else lookup v (profileDocs (remote w)).
Proof.
move=> h1 h2; rewrite /addIssue; run.
rewrite signedIn /= -/(nextCallOk w) h1 /= -/(secondCallOk w) h2 /=.
by rewrite lookup_upsert.
Qed.

(** C4 (amended). On an accepted report (an identity is signed in and both
    remote writes succeed) made while the local profile copy equals the
    stored profile, the stored points grow by 10 and the stored
    [reportedIssues] by 1 (a missing counter counting as 0), and the stored
    badges become the badges stored before together with "First Report" when
    the post-increment count is at least 1 and "Neighborhood Hero" when it is
    at least 5; in particular from a stored count of 0 the aggregate gets
    count 1, 10 more points and a badge set that contains "First Report". *)
Theorem report_accepted_updates_profile (p : Profile) :
  lookup (uid u) (profileDocs (remote w)) = Some p ->
  userProfile (app w) = p ->
  nextCallOk w -> secondCallOk w ->
  exists p' : Profile,
    [/\ lookup (uid u) (profileDocs (remote (addIssue issue w).2)) = Some p',
        [/\ points p' = increment 10 (points p),
            reportedIssues p' = increment 1 (reportedIssues p)
          & reportedIssues p' = Some (newReportCount p)],
        badges p' = Some (newBadges p),
        forall b : string,
          (b \in newBadges p) =
          [|| b \in JS.or_arr (badges p),
              (b == "First Report"%string) && (1 <=? newReportCount p)%Z
            | (b == "Neighborhood Hero"%string) && (5 <=? newReportCount p)%Z]
      & reportedIssues p = Some 0%Z ->
        [/\ reportedIssues p' = Some 1%Z,
            forall x : Z, points p = Some x -> points p' = Some (x + 10)%Z
          & "First Report"%string \in newBadges p]].
Proof.
move=> hp hl h1 h2.
exists (mergeProfile 10 1 (newBadges p) (Some p)).
rewrite (addIssue_profile _ h1 h2) eqxx hp hl /=.
split=> //; first by split=> //; exact: increment_or_num.
  exact: mem_newBadges.
move=> e0; rewrite e0 /=; split=> // [x ->//|].
by rewrite mem_newBadges /newReportCount e0 /= orbT.
Qed.

End Submit.

(** C4 (as stated) fails: two accepted reports that both bring the stored
    count to 1, each made with the profile freshly loaded, leave different
    badge sets, one of them with "Neighborhood Hero". *)
Lemma badges_not_a_function_of_the_count :
  let p1 := aliceProfile 0 [::] 0 in
  let p2 :=
    aliceProfile 0 [:: "First Report"%string; "Neighborhood Hero"%string] 0 in
  let after p :=
    lookup "alice"
      (profileDocs (remote (addIssue tamperedDraft (aliceSession true p [::])).2)) in
  [/\ omap reportedIssues (after p1) = Some (Some 1%Z),
      omap reportedIssues (after p2) = Some (Some 1%Z),
      omap badges (after p1) = Some (Some [:: "First Report"%string])
    & omap badges (after p2)
      = Some (Some [:: "First Report"%string; "Neighborhood Hero"%string])].
Proof. by []. Qed.

(** The local profile copy is not refreshed by a submit: five accepted
    reports in one session all compute their badges from the count loaded at
    sign-in. *)
Lemma five_reports_in_one_session :
  let w := play (nseq 5 (addIssue tamperedDraft))
             (aliceSession true (aliceProfile 0 [::] 0) [::]) in
  lookup "alice" (profileDocs (remote w))
  = Some (aliceProfile 50 [:: "First Report"%string] 5)
  /\ userProfile (app w) = aliceProfile 0 [::] 0.
Proof. by []. Qed.

(** ** Badges *)

Lemma storedBadges_modify (v k : string) (dp dr : Z) (r : Remote) :
  storedBadges v
    (mkRemote (issueDocs r)
       (modify k (incrementProfile dp dr) (profileDocs r)) (session r))
  = storedBadges v r.
Proof.
rewrite /storedBadges /= lookup_modify; case: eqP => [->|//].
by case: (lookup k _).
Qed.

(** No delete, whatever its outcome, changes a stored badge list. *)
Lemma handleDelete_badges (w : World) (issueId : option string) (v : string) :
  storedBadges v (remote (handleDelete issueId w).2) = storedBadges v (remote w).
Proof.
rewrite /handleDelete /bind /=.
case hu: (user (app w)) => [u|] //; case: issueId => [k|] //=.
case: (k != _) => //=; run; rewrite -/(nextCallOk w).
case: (nextCallOk w) => //=; rewrite -/(secondCallOk w).
case: (secondCallOk w) => //=.
case: (lookup _ _) => [p|] //=.
exact: (@storedBadges_modify v (uid u) (-10) (-1)
          (mkRemote [seq d <- issueDocs (remote w) | d.1 != k] _ _)).
Qed.

Lemma handleUpvote_profiles (w : World) (k : string) :
  profileDocs (remote (handleUpvote k w).2) = profileDocs (remote w).
Proof.
rewrite /handleUpvote /bind /=; case: (user _) => [u|] //; run.
by rewrite -/(nextCallOk w); case: (nextCallOk w) => //=; case: (lookup _ _).
Qed.

Lemma handleLogout_profiles (w : World) :
  profileDocs (remote (handleLogout w).2) = profileDocs (remote w).
Proof.
by rewrite /handleLogout; run; rewrite -/(nextCallOk w); case: (nextCallOk w).
Qed.

(** The badges a submit stores hold every badge of the local profile copy:
    no stored badge is lost when the copy holds them all. *)
Lemma addIssue_badges (w : World) (issue : Issue) :
  (forall u : User, user (app w) = Some u ->
     {subset storedBadges (uid u) (remote w)
        <= JS.or_arr (badges (userProfile (app w)))}) ->
  forall v : string,
    {subset storedBadges v (remote w)
       <= storedBadges v (remote (addIssue issue w).2)}.
Proof.
rewrite /addIssue /bind /=.
case hu: (user (app w)) => [u|] /= hl v b hb //.
run; rewrite -/(nextCallOk w).
case: (nextCallOk w) => //=; rewrite -/(secondCallOk w).
case: (secondCallOk w) => //=.
move: hb; rewrite /storedBadges /= lookup_upsert; case: eqP => // -> hb.
have {}hl := hl u erefl b hb.
by case: (lookup _ _) => [q|] /=; rewrite mem_newBadges hl.
Qed.

(** C8 (amended). A delete by a signed-in identity whose two remote calls
    succeed decrements the stored points by 10 and the stored
    [reportedIssues] by 1 through increments and leaves the stored badges as
    they are; no delete, whatever its outcome, changes any stored badge list,
    and neither upvote nor sign-out writes a profile.  A submit stores the
    badges of the local profile copy plus the newly earned ones, so it drops
    no stored badge when the local copy holds all of them. *)
Theorem delete_keeps_badges (w : World) (u : User) (k : string) (p : Profile) :
  user (app w) = Some u -> k != EmptyString ->
  lookup (uid u) (profileDocs (remote w)) = Some p ->
  nextCallOk w -> secondCallOk w ->
  let w' := (handleDelete (Some k) w).2 in
  [/\ exists p' : Profile,
        [/\ lookup (uid u) (profileDocs (remote w')) = Some p',
            points p' = increment (-10) (points p),
            reportedIssues p' = increment (-1) (reportedIssues p)
          & badges p' = badges p],
      remoteCalls (trace w') =
        remoteCalls (trace w) ++
        [:: (DeleteIssueDoc k, true); (IncrementProfile (uid u) (-10) (-1), true)],
      forall (w0 : World) (issueId : option string) (v : string),
        storedBadges v (remote (handleDelete issueId w0).2)
        = storedBadges v (remote w0),
      forall (w0 : World) (k0 : string),
        profileDocs (remote (handleUpvote k0 w0).2) = profileDocs (remote w0)
        /\ profileDocs (remote (handleLogout w0).2) = profileDocs (remote w0)
    & forall (w0 : World) (issue : Issue),
        (forall u0 : User, user (app w0) = Some u0 ->
           {subset storedBadges (uid u0) (remote w0)
              <= JS.or_arr (badges (userProfile (app w0)))}) ->
        forall v : string,
          {subset storedBadges v (remote w0)
             <= storedBadges v (remote (addIssue issue w0).2)}].
Proof.
move=> hu hk hp h1 h2 w'; split.
- exists (incrementProfile (-10) (-1) p); split=> //.
  by case: (handleDelete_profile hu hk hp h1 h2).
- case: (handleDelete_calls hu hk) => -> _.
  by rewrite h1 h2 hp.
- exact: handleDelete_badges.
- by move=> w0 k0; rewrite handleUpvote_profiles handleLogout_profiles.
- exact: addIssue_badges.
Qed.

(** C8 (as stated) fails: Alice holds both badges; she signs in, the load of
    her profile fails, so the local copy stays the initial zero-state; her
    next submit replaces the stored badges by ["First Report"]. *)
Lemma submit_can_drop_a_badge :
  let p :=
    aliceProfile 50 [:: "First Report"%string; "Neighborhood Hero"%string] 5 in
  let w := aliceSession false p [::] in
  let w' := (addIssue tamperedDraft w).2 in
  [/\ storedBadges "alice" (remote w)
        = [:: "First Report"%string; "Neighborhood Hero"%string],
      remoteCalls (trace w) = [:: (GetProfile "alice", false)],
      storedBadges "alice" (remote w') = [:: "First Report"%string]
    & omap reportedIssues (lookup "alice" (profileDocs (remote w')))
        = Some (Some 6%Z)].
Proof. by []. Qed.

(** ** Validation of the report form *)

(** [trim] on fields that JavaScript trims to nothing (a run of spaces; the
    ideographic space U+3000; a byte-order mark then a line separator) and on
    fields it keeps (inner white space stays, a no-break space at either end
    goes, the zero-width space U+200B is no white space). *)
Lemma trim_samples :
  let s3000 := String (ascii_of_nat 227) (String (ascii_of_nat 128)
                 (String (ascii_of_nat 128) EmptyString)) in
  let sFEFF_2028 := String (ascii_of_nat 239) (String (ascii_of_nat 187)
                      (String (ascii_of_nat 191)
                         (String (ascii_of_nat 226) (String (ascii_of_nat 128)
                            (String (ascii_of_nat 168) EmptyString))))) in
  let s200B := String (ascii_of_nat 226) (String (ascii_of_nat 128)
                 (String (ascii_of_nat 139) EmptyString)) in
  let nbsp_x_nbsp := String (ascii_of_nat 194) (String (ascii_of_nat 160)
                       (String "x" (String (ascii_of_nat 194)
                          (String (ascii_of_nat 160) EmptyString)))) in
  [/\ blank "   " && blank "" && blank s3000 && blank sFEFF_2028,
      JS.trim nbsp_x_nbsp = "x"%string,
      JS.trim "  a b  " = "a b"%string
    & ~~ blank "x" && ~~ blank s200B].
Proof. by []. Qed.

(** C5. When the title, the description or the location of the form is empty
    after [trim], the submit ends with the validation error
    "All fields are required." in the form and the world as it was: no remote
    call, no local update.  So a submit that contacts the store has all three
    fields non-empty after [trim]; and with all three non-empty and an
    identity signed in, the record of the form is handed to the store. *)
Theorem blank_field_blocks_submit (f : Form) (w : World) :
  let anyBlank :=
    [|| blank (f_title f), blank (f_description f) | blank (f_location f)] in
  [/\ anyBlank ->
      handleSubmit f w =
      (Val (mkForm (f_title f) (f_description f) (f_location f)
              (f_coordinates f) (f_media f) "All fields are required."), w),
      remoteCalls (trace (handleSubmit f w).2) <> remoteCalls (trace w) ->
      [/\ JS.trim (f_title f) != EmptyString,
          JS.trim (f_description f) != EmptyString
        & JS.trim (f_location f) != EmptyString]
    & forall u : User, ~~ anyBlank -> user (app w) = Some u ->
      written (trace (handleSubmit f w).2) =
      written (trace w) ++ [:: newIssueRecord (issueData f) (now (env w)) u]].
Proof.
move=> anyBlank; rewrite /handleSubmit -/anyBlank.
case h: anyBlank; split=> //.
- by move: h; rewrite /anyBlank /blank => /negbT; rewrite !negb_or => /and3P[].
- move=> u _ hu; rewrite /bind.
  have := addIssue_written (issueData f) hu.
  by case: (addIssue _ _) => [[[]|e] w1].
Qed.

(** ** The main media of a card *)

Lemma truthy_Some (s : string) : JS.truthy (Some s) = (s != EmptyString).
Proof. by []. Qed.

(** C9 (amended). The main media of a card is resolved from the image, photo
    and video references only: a record with none of the three (an
    audio-only record, say) has no primary media, and a record with exactly
    one of them has that one as its primary media, shown as a video when it
    is the video reference and as a photo otherwise. *)
Theorem primary_media_of_single_reference (issue : Issue) :
  [/\ ~~ JS.truthy (imageUrl issue) -> ~~ JS.truthy (photoUrl issue) ->
      ~~ JS.truthy (videoUrl issue) -> primaryMedia issue = None,
      forall url : string, imageUrl issue = Some url -> url != EmptyString ->
        ~~ JS.truthy (photoUrl issue) -> ~~ JS.truthy (videoUrl issue) ->
        primaryMedia issue = Some ("photo"%string, url),
      forall url : string, photoUrl issue = Some url -> url != EmptyString ->
        ~~ JS.truthy (imageUrl issue) -> ~~ JS.truthy (videoUrl issue) ->
        primaryMedia issue = Some ("photo"%string, url)
    & forall url : string, videoUrl issue = Some url -> url != EmptyString ->
        ~~ JS.truthy (imageUrl issue) -> ~~ JS.truthy (photoUrl issue) ->
        primaryMedia issue = Some ("video"%string, url)].
Proof.
rewrite /primaryMedia /mainMediaUrl /mainMediaType /JS.or_str.
split.
- by move=> /negbTE -> /negbTE -> /negbTE ->.
- by move=> url -> h _ /negbTE ->; do 3 ?[rewrite ?truthy_Some ?h /=].
- by move=> url -> h /negbTE -> /negbTE ->; do 3 ?[rewrite ?truthy_Some ?h /=].
- by move=> url -> h /negbTE -> /negbTE ->; do 3 ?[rewrite ?truthy_Some ?h /=].
Qed.

(** C9 (as stated) fails: a record whose only media reference is an audio
    recording has no primary media. *)
Lemma audio_record_has_no_primary_media :
  primaryMedia
    (mediaRecord None None None (Some "data:audio/webm;base64,AAAA"%string))
  = None.
Proof. by []. Qed.

(** With a photo and a video reference, the card's main slot is a video
    element whose source is the photo. *)
Lemma photo_and_video_record :
  primaryMedia
    (mediaRecord None (Some "data:image/png;base64,PPPP"%string)
       (Some "data:video/webm;base64,VVVV"%string) None)
  = Some ("video"%string, "data:image/png;base64,PPPP"%string).
Proof. by []. Qed.

(** ** The theorems at sample states *)

(** The feed of Alice's store: [i1] has more upvotes than [i2]. *)
Lemma feed_view_sorted_stable_witness :
  let docs := issueDocs (aliceStore zeroProfile) in
  let view := issues (app (onIssuesSnapshot docs (freshWorld (aliceStore zeroProfile) [::])).2) in
  view = [:: withId ("i1"%string, reportData 3 100);
             withId ("i2"%string, reportData 0 200)].
Proof.
move=> docs view.
have [_ _ _ _ h] :=
  feed_view_sorted_stable docs (freshWorld (aliceStore zeroProfile) [::]).
apply/esym/h; first by [].
move=> u c; rewrite /= /hasKeys /upvotesKey /createdAtKey /=.
by case: (3%Z =P u) => [<-|_] //=; case: (0%Z =P u) => [<-|_] //=; case: eqP.
Defined.


(** Alice's first report. *)
Lemma report_accepted_updates_profile_witness :
  let p := aliceProfile 0 [::] 0 in
  let w := aliceSession true p [::] in
  [/\ user (app w) = Some alice,
      lookup "alice" (profileDocs (remote w)) = Some p
    & exists p' : Profile,
        [/\ lookup "alice" (profileDocs (remote (addIssue tamperedDraft w).2))
              = Some p',
            reportedIssues p' = Some 1%Z, points p' = Some 10%Z
          & badges p' = Some [:: "First Report"%string]]].
Proof.
move=> p w.
have [p' [hl [hp hr _] hb _ h0]] :=
  @report_accepted_updates_profile w alice tamperedDraft (erefl _) p
    (erefl _) (erefl _) (erefl _) (erefl _).
split; [reflexivity | reflexivity | exists p'].
by split; [exact: hl | rewrite hr | rewrite hp | rewrite hb].
Defined.

(** A form with a blank description, and a filled-in form, submitted by
    Alice. *)
Lemma blank_field_blocks_submit_witness :
  let w := aliceSession true (aliceProfile 0 [::] 0) [::] in
  handleSubmit blankForm w =
    (Val (mkForm "Pothole" "   " "Main St" None NoMedia "All fields are required."), w)
  /\ written (trace (handleSubmit filledForm w).2) =
       [:: newIssueRecord (issueData filledForm) 300 alice].
Proof.
move=> w; split.
- have [h _ _] := blank_field_blocks_submit blankForm w.
  exact: (h (erefl _)).
- have [_ _ h] := blank_field_blocks_submit filledForm w.
  exact: (h alice (erefl _) (erefl _)).
Defined.

(** Alice submits a draft that claims to be resolved, upvoted and reported by
    someone else. *)
Lemma submitted_record_is_forced_witness :
  let w := aliceSession true (aliceProfile 0 [::] 0) [::] in
  let w' := (addIssue tamperedDraft w).2 in
  [/\ user (app w) = Some alice,
      written (trace w') = [:: newIssueRecord tamperedDraft 300 alice]
    & [seq (status d, upvotes d, createdAt d, reporterId d) | d <- written (trace w')]
      = [:: (Some "Acknowledged"%string, Some 0%Z, Some 300%Z, Some "alice"%string)]].
Proof.
move=> w w'.
have [h _ _] := @submitted_record_is_forced w alice tamperedDraft (erefl _).
by split; [reflexivity | exact: h | rewrite /w' h].
Defined.

(** Alice's delete of [i1] when both remote calls succeed. *)
Lemma delete_keeps_badges_witness :
  let p := aliceProfile 20 [:: "First Report"%string] 2 in
  let w := aliceSession true p [:: true; true] in
  let w' := (handleDelete (Some "i1"%string) w).2 in
  [/\ user (app w) = Some alice,
      lookup "alice" (profileDocs (remote w)) = Some p
    & exists p' : Profile,
        [/\ lookup "alice" (profileDocs (remote w')) = Some p',
            points p' = Some 10%Z, reportedIssues p' = Some 1%Z
          & badges p' = Some [:: "First Report"%string]]].
Proof.
move=> p w w'.
have [[p' [hl hp hr hb]] _ _ _ _] :=
  @delete_keeps_badges w alice "i1" p
    (erefl _) (erefl _) (erefl _) (erefl _) (erefl _).
split; [reflexivity | reflexivity | exists p'].
by split; [exact: hl | rewrite hp | rewrite hr | rewrite hb].
Defined.

(** A video-only record, and a record without media. *)
Lemma primary_media_of_single_reference_witness :
  primaryMedia
    (mediaRecord None None (Some "data:video/webm;base64,VVVV"%string) None)
  = Some ("video"%string, "data:video/webm;base64,VVVV"%string)
  /\ primaryMedia (mediaRecord None None None None) = None.
Proof.
split.
- have [_ _ _ h] :=
    primary_media_of_single_reference
      (mediaRecord None None (Some "data:video/webm;base64,VVVV"%string) None).
  exact: (h _ (erefl _) (erefl _) (erefl _) (erefl _)).
- have [h _ _ _] :=
    primary_media_of_single_reference (mediaRecord None None None None).
  exact: (h (erefl _) (erefl _) (erefl _)).
Defined.

(** Upvote and delete before anybody has signed in; Alice's delete without
    an id. *)
Lemma guards_are_noops_witness :
  [/\ user (app signedOutWorld) = None,
      handleUpvote "i1" signedOutWorld = (Val tt, signedOutWorld),
      handleDelete (Some "i1"%string) signedOutWorld = (Val tt, signedOutWorld)
    & let w := aliceSession true (aliceProfile 0 [::] 0) [::] in
      handleDelete None w = (Val tt, w)].
Proof.
have [h _] := guards_are_noops signedOutWorld "i1" (Some "i1"%string).
have [hup hdel] := h (erefl _).
split; [reflexivity | exact: hup | exact: hdel | move=> w].
have [_ h'] := guards_are_noops w "i1" None.
exact: (h' (erefl _)).
Defined.

(** * Further properties of the handlers *)

(** ** Loading the profile *)

Section FetchProfile.

Variables (w : World) (u : User).

(** X1. When its remote calls succeed, [fetchUserProfile] ends with the local
    profile copy equal to the stored profile of the identity: an existing
    document is read and the store is left as it is; a missing document is
    created as the zero-state named after the e-mail address, or
    "Guest User".  No other document is touched. *)
Theorem fetchUserProfile_loads_or_creates :
  nextCallOk w ->
  (lookup (uid u) (profileDocs (remote w)) = None -> secondCallOk w) ->
  let w' := (fetchUserProfile u w).2 in
  [/\ (fetchUserProfile u w).1 = Val tt,
      lookup (uid u) (profileDocs (remote w')) = Some (userProfile (app w')),
      userProfile (app w')
        = odflt (initialProfile u) (lookup (uid u) (profileDocs (remote w))),
      lookup (uid u) (profileDocs (remote w)) -> remote w' = remote w
    & issueDocs (remote w') = issueDocs (remote w)
      /\ forall v : string, v != uid u ->
           lookup v (profileDocs (remote w'))
           = lookup v (profileDocs (remote w))].
Proof.
move=> h1; rewrite /fetchUserProfile /getDoc; run.
rewrite -/(nextCallOk w) h1 /=.
case e: (lookup (uid u) (profileDocs (remote w))) => [p|] /= h2.
  by split=> //; case: (remote w).
rewrite -/(secondCallOk w) h2 //=; split=> //; first by rewrite lookup_upsert eqxx.
by split=> // v /negbTE hv; rewrite lookup_upsert hv.
Qed.

(** X2. When a remote call of [fetchUserProfile] fails (the read of the
    profile, or the write that creates a missing profile), the handler ends
    with the error of that call, which nothing catches; the local state keeps
    the values it had and nothing is written to the store. *)
Theorem fetchUserProfile_failure_changes_nothing :
  ~~ nextCallOk w
  || ~~ isSome (lookup (uid u) (profileDocs (remote w))) && ~~ secondCallOk w ->
  let w' := (fetchUserProfile u w).2 in
  [/\ (fetchUserProfile u w).1 =
        Throw (RemoteError
                 (if nextCallOk w then SetProfile (uid u) (initialProfile u)
                  else GetProfile (uid u))),
      app w' = app w,
      remote w' = remote w
    & remoteCalls (trace w') =
        remoteCalls (trace w) ++
        (if nextCallOk w
         then [:: (GetProfile (uid u), true);
                  (SetProfile (uid u) (initialProfile u), false)]
         else [:: (GetProfile (uid u), false)])].
Proof.
rewrite /fetchUserProfile /getDoc; run; rewrite -/(nextCallOk w).
case: (nextCallOk w) => /=; last by rewrite remoteCalls_rcons.
case: (lookup (uid u) (profileDocs (remote w))) => [p|] //=.
rewrite -/(secondCallOk w) => /negbTE -> /=.
by rewrite !remoteCalls_rcons -catA; case: (remote w).
Qed.

End FetchProfile.

(** ** Upvotes *)

Lemma upvotesKey_increment (n : Z) (d : Issue) :
  upvotesKey (incrementUpvotes n d) = (upvotesKey d + n)%Z.
Proof. by rewrite /upvotesKey /=; case: (upvotes d). Qed.

Lemma keys_modify (T : Type) (k : string) (f : T -> T) (docs : seq (string * T)) :
  [seq d.1 | d <- modify k f docs] = [seq d.1 | d <- docs].
Proof. by elim: docs => [|[k0 v] docs IH] //=; case: ifP => //= _; rewrite IH. Qed.

Section Upvote.

Variables (w : World) (u : User) (k : string) (d : Issue).
Hypothesis signedIn : user (app w) = Some u.
Hypothesis stored : lookup k (issueDocs (remote w)) = Some d.
Hypothesis getsThrough : nextCallOk w.

Lemma handleUpvote_served :
  handleUpvote k w =
  (Val tt,
   mkWorld (app w)
     (mkRemote (modify k (incrementUpvotes 1) (issueDocs (remote w)))
        (profileDocs (remote w)) (session (remote w)))
     (mkEnv (behead (outcomes (env w))) (autoIds (env w)) (now (env w)))
     (rcons (trace w) (Remote_call (IncrementUpvotes k 1) true))).
Proof.
by rewrite /handleUpvote; run; rewrite signedIn /= -/(nextCallOk w) getsThrough stored.
Qed.

(** X3. An upvote by a signed-in identity that reaches an existing document
    issues one call, the increment of that document's counter by 1; the
    stored document becomes the same record with its counter 1 higher (a
    missing counter counting as 0) and every other field as it was, and
    nothing else changes: the other documents, the documents' order, the
    profiles, the session and the whole local state, feed view included,
    stay as they are. *)
Theorem upvote_adds_one :
  let w' := (handleUpvote k w).2 in
  [/\ remoteCalls (trace w') =
        rcons (remoteCalls (trace w)) (IncrementUpvotes k 1, true),
      lookup k (issueDocs (remote w')) =
        Some (mkIssue (id d) (title d) (description d) (location d)
                (coordinates d) (imageUrl d) (photoUrl d) (videoUrl d)
                (audioUrl d) (status d) (Some (upvotesKey d + 1)%Z)
                (createdAt d) (reporterId d)),
      (forall k' : string, k' != k ->
         lookup k' (issueDocs (remote w')) = lookup k' (issueDocs (remote w)))
      /\ [seq x.1 | x <- issueDocs (remote w')]
         = [seq x.1 | x <- issueDocs (remote w)],
      profileDocs (remote w') = profileDocs (remote w)
      /\ session (remote w') = session (remote w)
    & app w' = app w].
Proof.
rewrite handleUpvote_served /=; split=> //.
- by rewrite remoteCalls_rcons cats1.
- rewrite lookup_modify eqxx stored /= /incrementUpvotes /upvotesKey.
  by case: (upvotes d).
- split; last exact: keys_modify.
  by move=> k' /negbTE hk; rewrite lookup_modify hk.
Qed.

End Upvote.

Lemma allCallsOk_next (w : World) : allCallsOk w -> nextCallOk w.
Proof. by rewrite /allCallsOk /nextCallOk; case: (outcomes _) => //= b os /andP[]. Qed.

(** X4. Upvotes add up: [n] upvotes of an existing document by a signed-in
    identity, all of them getting through, leave its stored counter [n]
    higher. *)
Theorem upvotes_accumulate (n : nat) (w : World) (u : User) (k : string) (d : Issue) :
  user (app w) = Some u ->
  lookup k (issueDocs (remote w)) = Some d ->
  allCallsOk w ->
  exists d' : Issue,
    lookup k (issueDocs (remote (play (nseq n (handleUpvote k)) w))) = Some d'
    /\ upvotesKey d' = (upvotesKey d + Z.of_nat n)%Z.
Proof.
elim: n w d => [|n IH] w d hu hd hok.
  by exists d; rewrite /= Z.add_0_r.
have h1 := allCallsOk_next hok.
rewrite /= (handleUpvote_served hu hd h1) /=.
set w1 := mkWorld _ _ _ _.
have hu1 : user (app w1) = Some u by [].
have hd1 : lookup k (issueDocs (remote w1)) = Some (incrementUpvotes 1 d).
  by rewrite /= lookup_modify eqxx hd.
have hok1 : allCallsOk w1.
  by move: hok; rewrite /allCallsOk /=; case: (outcomes _) => //= b os /andP[].
have [d' [hl hk]] := IH w1 _ hu1 hd1 hok1.
by exists d'; rewrite hl hk upvotesKey_increment; split=> //; lia.
Qed.

Lemma upvote_keeps_app (w : World) (k : string) :
  (handleUpvote k w).1 = Val tt /\ app (handleUpvote k w).2 = app w.
Proof.
rewrite /handleUpvote /bind /=; case: (user (app w)) => [u|] //; run.
rewrite -/(nextCallOk w); case: (nextCallOk w) => //=.
by case: (lookup _ _).
Qed.

(** X5. An upvote never changes the local state and never lets an error
    out: a failed upvote (the call does not get through, or the document
    does not exist) sets no error message and leaves the store as it is. *)
Theorem upvote_failure_is_silent (w : World) (k : string) :
  let w' := (handleUpvote k w).2 in
  [/\ (handleUpvote k w).1 = Val tt,
      app w' = app w
    & ~~ nextCallOk w || ~~ isSome (lookup k (issueDocs (remote w))) ->
      remote w' = remote w].
Proof.
rewrite /handleUpvote /bind /=; case: (user (app w)) => [u|] //; run.
rewrite -/(nextCallOk w); case: (nextCallOk w) => //=.
by case: (lookup _ _).
Qed.

(** ** The outcomes of a submit *)

(** X6. Without an identity [addIssue] only sets the message
    "You must be signed in.": no remote call is issued, the store and the
    rest of the local state stay as they are, and the submitting flag is not
    raised. *)
Theorem addIssue_requires_identity (w : World) (issue : Issue) :
  user (app w) = None ->
  let w' := (addIssue issue w).2 in
  [/\ error (app w') = Some "You must be signed in."%string,
      remote w' = remote w,
      remoteCalls (trace w') = remoteCalls (trace w),
      isSubmitting (app w') = isSubmitting (app w)
    & issues (app w') = issues (app w) /\ showForm (app w') = showForm (app w)].
Proof.
by move=> hu; rewrite /addIssue; run; rewrite hu /= remoteCalls_rcons cats0.
Qed.

Section SubmitOutcomes.

Variables (w : World) (u : User) (issue : Issue).
Hypothesis signedIn : user (app w) = Some u.

(** X7. When the write of the issue fails, the submit stops there: the
    profile update is not attempted, the store is unchanged, the message
    "Failed to submit issue." is set, the form stays open and the
    submitting flag is lowered again. *)
Theorem addIssue_write_failure :
  ~~ nextCallOk w ->
  let w' := (addIssue issue w).2 in
  let data := newIssueRecord issue (now (env w)) u in
  [/\ remoteCalls (trace w') = rcons (remoteCalls (trace w)) (AddIssueDoc data, false),
      remote w' = remote w,
      error (app w') = Some submitFailed,
      showForm (app w') = showForm (app w)
    & isSubmitting (app w') = false].
Proof.
move=> /negbTE h; rewrite /addIssue; run.
rewrite signedIn /= -/(nextCallOk w) h /=.
by rewrite !remoteCalls_rcons /= !cats0 cats1.
Qed.

(** X8. When the issue is written and the profile update that follows
    fails, the issue is not taken back: the new document stays in the
    collection while every profile is as before (no points awarded), and the
    user sees "Failed to submit issue." with the form still open. *)
Theorem addIssue_profile_failure :
  nextCallOk w -> ~~ secondCallOk w ->
  let w' := (addIssue issue w).2 in
  let data := newIssueRecord issue (now (env w)) u in
  let merge := MergeProfile (uid u) 10 1 (newBadges (userProfile (app w))) in
  [/\ remoteCalls (trace w') =
        remoteCalls (trace w) ++ [:: (AddIssueDoc data, true); (merge, false)],
      issueDocs (remote w') =
        rcons (issueDocs (remote w)) (head EmptyString (autoIds (env w)), data),
      profileDocs (remote w') = profileDocs (remote w),
      error (app w') = Some submitFailed
    & showForm (app w') = showForm (app w) /\ isSubmitting (app w') = false].
Proof.
move=> h1 /negbTE h2; rewrite /addIssue; run.
rewrite signedIn /= -/(nextCallOk w) h1 /= -/(secondCallOk w) h2 /=.
by rewrite !remoteCalls_rcons /= !cats0 -catA.
Qed.

(** X9. When both writes succeed, the submit closes the form, leaves no
    error message and lowers the submitting flag; the local feed view and
    the local profile copy are not touched (the new record reaches the view
    with the next snapshot only). *)
Theorem addIssue_success :
  nextCallOk w -> secondCallOk w ->
  let w' := (addIssue issue w).2 in
  let data := newIssueRecord issue (now (env w)) u in
  let merge := MergeProfile (uid u) 10 1 (newBadges (userProfile (app w))) in
  [/\ remoteCalls (trace w') =
        remoteCalls (trace w) ++ [:: (AddIssueDoc data, true); (merge, true)],
      showForm (app w') = false /\ error (app w') = None,
      isSubmitting (app w') = false,
      issues (app w') = issues (app w)
    & userProfile (app w') = userProfile (app w)].
Proof.
move=> h1 h2; rewrite /addIssue; run.
rewrite signedIn /= -/(nextCallOk w) h1 /= -/(secondCallOk w) h2 /=.
by rewrite !remoteCalls_rcons /= !cats0 -catA.
Qed.

End SubmitOutcomes.

(** ** Errors that stay inside the handlers *)

(** X10. No failure of a remote call leaves [addIssue], [handleDelete],
    [handleUpvote] or the form's [handleSubmit]: each of them returns
    normally in every world. *)
Theorem handlers_catch_remote_failures
    (w : World) (issue : Issue) (issueId : option string) (k : string) (f : Form) :
  [/\ (addIssue issue w).1 = Val tt,
      (handleDelete issueId w).1 = Val tt,
      (handleUpvote k w).1 = Val tt
    & exists f' : Form, (handleSubmit f w).1 = Val f'].
Proof.
have hadd (i : Issue) : (addIssue i w).1 = Val tt.
  rewrite /addIssue /bind /=; case: (user (app w)) => [u|] //; run.
  rewrite -/(nextCallOk w); case: (nextCallOk w) => //=.
  by rewrite -/(secondCallOk w); case: (secondCallOk w).
split=> //.
- rewrite /handleDelete /bind /=.
  case: (user (app w)) => [u|] //; case: issueId => [k0|] //=.
  case: (k0 != _) => //=; run; rewrite -/(nextCallOk w).
  case: (nextCallOk w) => //=; rewrite -/(secondCallOk w).
  by case: (secondCallOk w) => //=; case: (lookup _ _).
- rewrite /handleUpvote /bind /=; case: (user (app w)) => [u|] //; run.
  rewrite -/(nextCallOk w); case: (nextCallOk w) => //=.
  by case: (lookup _ _).
- rewrite /handleSubmit; case: ifP => _; first by eexists.
  by exists f; rewrite /bind; have := hadd (issueData f); case: (addIssue _ _) => [[[]|e] w1].
Qed.

(** ** The local view and the store *)

Lemma filter_withId (k : string) (docs : seq (string * Issue)) :
  all noOwnId docs ->
  [seq d <- docs | id (withId d) != Some k] = [seq d <- docs | d.1 != k].
Proof.
elim: docs => [|[k0 i] docs IH] //= /andP[h0 hs]; rewrite IH //.
by move: h0; rewrite /noOwnId /=; case: (id i).
Qed.

(** Removing a record from the sorted view is sorting the documents without
    it. *)
Lemma filter_feedView (k : string) (docs : seq (string * Issue)) :
  all noOwnId docs ->
  [seq issue <- feedView docs | id issue != Some k]
  = feedView [seq d <- docs | d.1 != k].
Proof.
move=> h; rewrite /feedView /JS.array_sort.
rewrite (filter_sort sort_le_total sort_le_trans) filter_map.
by congr (sort _ (map _ _)); exact: filter_withId.
Qed.

(** X11. The optimistic removal shows what the store will deliver: when the
    local feed view is the sorted snapshot of the collection (whose stored
    data carry no [id] field of their own) and both remote calls of a delete
    succeed, the view after the delete is already the sorted snapshot of the
    collection after the delete, so the next snapshot changes nothing. *)
Theorem optimistic_delete_matches_snapshot
    (w : World) (u : User) (k : string) :
  user (app w) = Some u -> k != EmptyString ->
  issues (app w) = feedView (issueDocs (remote w)) ->
  all noOwnId (issueDocs (remote w)) ->
  nextCallOk w -> secondCallOk w ->
  isSome (lookup (uid u) (profileDocs (remote w))) ->
  let w' := (handleDelete (Some k) w).2 in
  [/\ issues (app w') = feedView (issueDocs (remote w')),
      issues (app (deliverSnapshot w').2) = issues (app w'),
      issueDocs (remote w') = [seq d <- issueDocs (remote w) | d.1 != k]
    & error (app w') = error (app w)].
Proof.
move=> hu hk hv hn h1 h2 hp.
rewrite /deliverSnapshot /= (handleDelete_run hu hk); run.
rewrite -/(nextCallOk w) h1 /= -/(secondCallOk w) h2 /=.
case: (lookup _ _) hp => [p|] //= _.
by rewrite hv filter_feedView.
Qed.

Lemma filter_rcons_fresh (T : Type) (k : string) (v : T) (docs : seq (string * T)) :
  k \notin [seq d.1 | d <- docs] ->
  [seq d <- rcons docs (k, v) | d.1 != k] = docs.
Proof.
move=> h; rewrite filter_rcons /= eqxx /=.
apply/all_filterP; elim: docs h => [|[k0 v0] docs IH] //=.
by rewrite inE negb_or eq_sym => /andP[-> /IH].
Qed.

Lemma lookup_fresh (T : Type) (k : string) (docs : seq (string * T)) :
  k \notin [seq d.1 | d <- docs] -> lookup k docs = None.
Proof.
elim: docs => [|[k0 v0] docs IH] //=.
by rewrite inE negb_or eq_sym => /andP[/negbTE -> /IH].
Qed.

Lemma removed_has_no_id (k : string) (s : seq Issue) :
  ~~ has (fun r => id r == Some k) [seq r <- s | id r != Some k].
Proof.
rewrite -all_predC all_filter; elim: s => //= r s ->; rewrite andbT.
by case: (id r == Some k).
Qed.

Lemma all_ok_heads (os : seq bool) :
  all (fun ok : bool => ok) os ->
  [/\ head true os, head true (behead os), head true (behead (behead os))
    & head true (behead (behead (behead os)))].
Proof.
case: os => [|a [|b [|c [|d os]]]] //=.
- by case: a.
- by case: a => //; case: b.
- by case: a => //; case: b => //; case: c.
- by case: a => //; case: b => //; case: c => //; case: d.
Qed.

(** X12. Submit, then delete: a report that is submitted, shows up in the
    next snapshot under the id the store gave it and is then deleted through
    that id, with every remote call succeeding, leaves the issue collection
    and the two counters of the profile as they were before the submit (a
    missing counter ending at 0); the badges computed by the submit stay. *)
Theorem submit_then_delete
    (w : World) (u : User) (p : Profile) (issue : Issue) :
  user (app w) = Some u ->
  lookup (uid u) (profileDocs (remote w)) = Some p ->
  id issue = None ->
  let newId := head EmptyString (autoIds (env w)) in
  newId != EmptyString ->
  newId \notin [seq d.1 | d <- issueDocs (remote w)] ->
  allCallsOk w ->
  let w1 := (deliverSnapshot (addIssue issue w).2).2 in
  let w2 := (handleDelete (Some newId) w1).2 in
  [/\ has (fun r => id r == Some newId) (issues (app w1)),
      issueDocs (remote w2) = issueDocs (remote w),
      ~~ has (fun r => id r == Some newId) (issues (app w2))
    & exists p' : Profile,
        [/\ lookup (uid u) (profileDocs (remote w2)) = Some p',
            points p' = Some (odflt 0%Z (points p)),
            reportedIssues p' = Some (odflt 0%Z (reportedIssues p))
          & badges p' = Some (newBadges (userProfile (app w)))]].
Proof.
move=> hu hp hi newId hne hfresh hok.
have [t1 t2 t3 t4] := all_ok_heads hok.
rewrite /deliverSnapshot /addIssue; run.
rewrite hu /= t1 /= t2 /=.
rewrite /handleDelete; run; rewrite hu /= -/newId hne /= t3 /= t4 /=.
rewrite lookup_upsert eqxx /= lookup_modify eqxx lookup_upsert eqxx hp /=.
rewrite (filter_rcons_fresh _ hfresh).
split=> //.
- rewrite /feedView /JS.array_sort has_count count_sort -has_count.
  by rewrite has_map has_rcons /= hi eqxx.
- exact: removed_has_no_id.
- exists (incrementProfile (-10) (-1) (mergeProfile 10 1 (newBadges (userProfile (app w))) (Some p))).
  split=> //=.
  + by case: (points p) => [x|] //=; congr Some; lia.
  + by case: (reportedIssues p) => [x|] //=; congr Some; lia.
Qed.

(** ** Badges over a session *)

Lemma pushBadge_cat (count threshold : Z) (badge : string) (bs : seq string) :
  pushBadge count threshold badge bs =
  bs ++ [seq b <- (if (threshold <=? count)%Z then [:: badge] else [::])
           | b \notin bs].
Proof.
rewrite /pushBadge; case: (threshold <=? count)%Z => /=; last by rewrite cats0.
by case: (badge \notin bs); rewrite ?cats0 ?cats1.
Qed.

Lemma pushBadge_same (count threshold : Z) (badge : string) (bs : seq string) :
  (threshold <=? count)%Z ==> (badge \in bs) ->
  pushBadge count threshold badge bs = bs.
Proof. by rewrite /pushBadge; case: (_ <=? _)%Z => //= ->. Qed.

(** X13. The badge list a submit computes keeps the badges already held, in
    their order, at the front and appends only the earned badges that are
    missing, "First Report" before "Neighborhood Hero"; it introduces no
    duplicate, and computing it again from its own result adds nothing. *)
Theorem newBadges_appends_missing (p : Profile) :
  let held := JS.or_arr (badges p) in
  [/\ newBadges p
        = held ++ [seq b <- earnedBadges (newReportCount p) | b \notin held],
      uniq held -> uniq (newBadges p)
    & newBadges (mkProfile (points p) (Some (newBadges p)) (reportedIssues p) (name p))
        = newBadges p].
Proof.
move=> held.
have e : newBadges p
         = held ++ [seq b <- earnedBadges (newReportCount p) | b \notin held].
  rewrite /newBadges !pushBadge_cat -/held -catA /earnedBadges filter_cat.
  congr (_ ++ (_ ++ _)).
  case: (5 <=? _)%Z => //=; rewrite mem_cat negb_or.
  suff -> : "Neighborhood Hero"%string
              \notin [seq b <- if (1 <=? newReportCount p)%Z
                               then [:: "First Report"%string] else [::]
                        | b \notin held] by rewrite andbT.
  by case: (1 <=? _)%Z => //=; case: (_ \notin held).
split=> //.
- move=> hu; rewrite e cat_uniq hu /=; apply/andP; split.
    by rewrite -all_predC all_filter; apply/allP => b _ /=; apply/implyP.
  by apply: filter_uniq; rewrite /earnedBadges; do 2 case: (_ <=? _)%Z.
- set n := newReportCount p.
  have h1 : pushBadge n 1 "First Report" (newBadges p) = newBadges p.
    apply: pushBadge_same; apply/implyP => h.
    by rewrite mem_newBadges -/n h andbT orbT.
  have h5 : pushBadge n 5 "Neighborhood Hero" (newBadges p) = newBadges p.
    apply: pushBadge_same; apply/implyP => h.
    by rewrite mem_newBadges -/n h andbT !orbT.
  have -> : newBadges (mkProfile (points p) (Some (newBadges p))
                         (reportedIssues p) (name p))
            = pushBadge n 5 "Neighborhood Hero"
                (pushBadge n 1 "First Report" (newBadges p)) by [].
  by rewrite h1 h5.
Qed.

(** No action of a session changes the identity or the local profile copy. *)
Lemma perform_keeps_profile (a : Action) (w : World) :
  user (app (perform a w).2) = user (app w)
  /\ userProfile (app (perform a w).2) = userProfile (app w).
Proof.
case: a => [issue|issueId|k|] /=.
- rewrite /addIssue /bind /=; case hu: (user (app w)) => [u|]; run => //.
  rewrite -/(nextCallOk w); case: (nextCallOk w) => //=.
  by rewrite -/(secondCallOk w); case: (secondCallOk w).
- rewrite /handleDelete /bind /=.
  case hu: (user (app w)) => [u|] //; case: issueId => [k|] //=.
  case: (k != _) => //=; run; rewrite -/(nextCallOk w).
  case: (nextCallOk w) => //=; rewrite -/(secondCallOk w).
  by case: (secondCallOk w) => //=; case: (lookup _ _).
- by case: (upvote_keeps_app w k) => _ ->.
- by [].
Qed.

(** After an action the stored badges of the identity are the ones stored
    before, or the list computed from the local profile copy. *)
Lemma perform_badges (a : Action) (w : World) (u : User) :
  user (app w) = Some u ->
  storedBadges (uid u) (remote (perform a w).2) = storedBadges (uid u) (remote w)
  \/ storedBadges (uid u) (remote (perform a w).2)
     = newBadges (userProfile (app w)).
Proof.
move=> hu; case: a => [issue|issueId|k|] /=.
- rewrite /addIssue; run; rewrite hu /= -/(nextCallOk w).
  case: (nextCallOk w) => /=; last by left.
  rewrite -/(secondCallOk w); case: (secondCallOk w) => /=; last by left.
  right; rewrite /storedBadges /= lookup_upsert eqxx.
  by case: (lookup _ _).
- by left; exact: handleDelete_badges.
- by left; rewrite /storedBadges handleUpvote_profiles.
- by left.
Qed.

(** X14. Within a session the stored badges of the signed-in identity only
    grow: when they are among the badges the local profile copy yields (as
    they are after the profile was loaded), then after any sequence of
    submits, deletes, upvotes and snapshots, whatever the outcomes of the
    remote calls, every badge stored at the start is still stored, and the
    stored badges are still among those the local copy yields. *)
Theorem session_keeps_badges (actions : seq Action) (w : World) (u : User) :
  user (app w) = Some u ->
  {subset storedBadges (uid u) (remote w) <= newBadges (userProfile (app w))} ->
  let w' := session_run actions w in
  {subset storedBadges (uid u) (remote w) <= storedBadges (uid u) (remote w')}
  /\ {subset storedBadges (uid u) (remote w') <= newBadges (userProfile (app w))}.
Proof.
rewrite /session_run; elim: actions w => [|a actions IH] w hu hs /=.
  by split.
have [hu1 hp1] := perform_keeps_profile a w.
have hb := perform_badges a hu.
set w1 := (perform a w).2 in hu1 hp1 hb *.
have hs1 : {subset storedBadges (uid u) (remote w1)
              <= newBadges (userProfile (app w1))}.
  by rewrite hp1; case: hb => -> //.
have [|h1 h2] := IH w1 _ hs1; first by rewrite hu1.
split; last by rewrite -hp1.
by move=> b hb0; apply: h1; case: hb => -> //; apply: hs.
Qed.

(** X15. No submit, delete, upvote or snapshot refreshes the local profile
    copy or changes the identity: after any session they are what they were
    at its start, so the points, the report count and the badges read from
    the copy do not follow the store. *)
Theorem session_keeps_local_profile (actions : seq Action) (w : World) :
  let w' := session_run actions w in
  user (app w') = user (app w) /\ userProfile (app w') = userProfile (app w).
Proof.
rewrite /session_run; elim: actions w => [|a actions IH] w //=.
have [hu hp] := perform_keeps_profile a w.
by have [-> ->] := IH (perform a w).2.
Qed.

(** ** From the form to the card *)

(** X16. The card of a report built by the form: in the feed the record
    carries the id of its document, only its reporter is its owner, and its
    main slot shows the captured photo as a photo, the captured video as a
    video, nothing for a voice recording (which is kept as the audio
    reference), and the placeholder image when no medium was captured. *)
Theorem card_of_submitted_record (f : Form) (t : Z) (u : User) (k : string) :
  let r := withId (k, newIssueRecord (issueData f) t u) in
  [/\ id r = Some k,
      forall v : string, isOwner r v = (uid u == v),
      primaryMedia r =
        match f_media f with
        | Captured kind (Some url) =>
            if url == EmptyString
            then Some ("photo"%string, noMediaPlaceholder)
            else match kind with
                 | Photo => Some ("photo"%string, url)
                 | Video => Some ("video"%string, url)
                 | Audio => None
                 end
        | _ => Some ("photo"%string, noMediaPlaceholder)
        end
    & audioUrl r =
        match f_media f with
        | Captured Audio (Some url) =>
            if url == EmptyString then None else Some url
        | _ => None
        end].
Proof.
have hid : id (issueData f) = None.
  rewrite /issueData; case: (f_media f) => [|k0 d] //=.
  by case: (JS.truthy d) => //; case: k0.
split.
- by rewrite /= hid.
- by [].
- rewrite /issueData; case: (f_media f) => [|kind [url|]]; [by [] | | by []].
  rewrite truthy_Some; case e: (url == EmptyString); first by [].
  rewrite /primaryMedia /mainMediaUrl /mainMediaType /JS.or_str.
  by case: kind => /=; rewrite ?truthy_Some ?e //= ?truthy_Some ?e.
- rewrite /issueData; case: (f_media f) => [|kind [url|]]; [by [] | | by case: kind].
  by rewrite truthy_Some; case e: (url == EmptyString); case: kind.
Qed.

(** ** An accepted form *)

(** X18. An accepted form, end to end: with three fields that are not blank,
    an identity signed in and both writes succeeding, the collection gets
    one new document under the id the store generates; it holds the title,
    the description and the location exactly as typed (not trimmed) and the
    coordinates of the form; the modal is closed and the form's own state,
    its earlier error message included, is returned unchanged. *)
Theorem accepted_form_is_stored (f : Form) (w : World) (u : User) :
  ~~ [|| blank (f_title f), blank (f_description f) | blank (f_location f)] ->
  user (app w) = Some u ->
  nextCallOk w -> secondCallOk w ->
  let w' := (handleSubmit f w).2 in
  [/\ (handleSubmit f w).1 = Val f,
      showForm (app w') = false
    & exists data : Issue,
        [/\ issueDocs (remote w') =
              rcons (issueDocs (remote w))
                (head EmptyString (autoIds (env w)), data),
            [/\ title data = Some (f_title f),
                description data = Some (f_description f)
              & location data = Some (f_location f)],
            coordinates data = f_coordinates f
          & id data = None]].
Proof.
move=> /negbTE hb hu h1 h2; rewrite /handleSubmit hb /addIssue; run.
rewrite hu /= -/(nextCallOk w) h1 /= -/(secondCallOk w) h2 /=.
split=> //; eexists; split; first by reflexivity.
- by rewrite /issueData; case: (f_media f) => [|k d] //=; case: (JS.truthy d) => //; case: k.
- by rewrite /issueData; case: (f_media f) => [|k d] //=; case: (JS.truthy d) => //; case: k.
- by rewrite /issueData; case: (f_media f) => [|k d] //=; case: (JS.truthy d) => //; case: k.
Qed.

(** ** Signing in *)

Section SignIn.

Variable service : AuthCall -> AuthReply.

(** X19. The login screen: with the login view shown the form signs in,
    with any other view it signs up.  Either way an earlier error message is
    cleared first, a refusal puts the service's own message into [error],
    the loading flag is lowered at the end in both cases, no error leaves
    the handler, and the handler itself never sets the identity (only the
    authentication listener does). *)
Theorem login_screen_submit (email password : string) (w : World) :
  let c := if authView (app w) is LoginView
           then SignInWithEmailAndPassword email password
           else CreateUserWithEmailAndPassword email password in
  let w' := (loginScreenSubmit service email password w).2 in
  [/\ (loginScreenSubmit service email password w).1 = Val tt,
      error (app w') = (if service c is Refused message then Some message else None),
      isLoading (app w') = false,
      user (app w') = user (app w)
    & session (remote w') =
        (if service c is Granted u then Some u else session (remote w))].
Proof.
rewrite /loginScreenSubmit /bind /=.
by case: (authView (app w)); rewrite /handleLogin /handleSignup /authenticate;
   run; case: (service _).
Qed.

(** X20. Guest login redeems the initial token when one is defined and
    signs in anonymously otherwise.  When the service grants the session,
    the handler leaves the loading flag raised and an earlier error message
    in place; it is the authentication listener that then sets the identity
    and lowers the flag.  When the service refuses, the message
    "Guest authentication failed." is set and the flag is lowered. *)
Theorem guest_login (initialAuthToken : option string) (w : World) :
  let c := if initialAuthToken is Some token
           then SignInWithCustomToken token else SignInAnonymously in
  let w' := (handleGuestLogin service initialAuthToken w).2 in
  (handleGuestLogin service initialAuthToken w).1 = Val tt
  /\ user (app w') = user (app w)
  /\ match service c with
     | Granted u =>
         [/\ session (remote w') = Some u,
             isLoading (app w') = true,
             error (app w') = error (app w)
           & let w'' := (onAuthStateChanged (Some u) w').2 in
             user (app w'') = Some u /\ isLoading (app w'') = false]
     | Refused _ =>
         [/\ session (remote w') = session (remote w),
             isLoading (app w') = false
           & error (app w') = Some "Guest authentication failed."%string]
     end.
Proof.
rewrite /handleGuestLogin /authenticate; run.
by case: initialAuthToken => [token|]; case: (service _).
Qed.

End SignIn.

(** X21. A sign-in rebuilds the local state from the store: whatever the
    local state was, once the authentication listener has fired, the profile
    effect has run with its remote calls succeeding and a snapshot has
    arrived, the identity is set, the loading flag is lowered, the local
    profile copy is the stored profile and the feed view is the sorted
    collection. *)
Theorem sign_in_rebuilds_local_state (w : World) (u : User) :
  nextCallOk w ->
  (lookup (uid u) (profileDocs (remote w)) = None -> secondCallOk w) ->
  let w' := play [:: onAuthStateChanged (Some u); fetchUserProfile u;
                     deliverSnapshot] w in
  [/\ user (app w') = Some u,
      isLoading (app w') = false,
      lookup (uid u) (profileDocs (remote w')) = Some (userProfile (app w')),
      issues (app w') = feedView (issueDocs (remote w'))
    & issueDocs (remote w') = issueDocs (remote w)].
Proof.
move=> h1; rewrite /play /= /deliverSnapshot /fetchUserProfile /getDoc; run.
rewrite -/(nextCallOk w) h1 /=.
case e: (lookup (uid u) (profileDocs (remote w))) => [p|] /= h2; first by [].
by rewrite -/(secondCallOk w) h2 //=; split=> //; rewrite lookup_upsert eqxx.
Qed.

(** ** The further properties at sample states *)

(** Alice's first sign-in, over a store that has no profile of hers. *)
Lemma fetchUserProfile_loads_or_creates_witness :
  let w := freshWorld (mkRemote [::] [::] (Some alice)) [::] in
  let w' := (fetchUserProfile alice w).2 in
  userProfile (app w')
    = mkProfile (Some 0%Z) (Some [::]) (Some 0%Z) (Some "alice@example.org"%string)
  /\ lookup "alice" (profileDocs (remote w')) = Some (userProfile (app w')).
Proof.
move=> w w'.
have [_ hl hp _ _] :=
  @fetchUserProfile_loads_or_creates w alice (erefl _) (fun _ => erefl _).
by split; [rewrite /w' hp | exact: hl].
Defined.

(** The load of Alice's profile fails. *)
Lemma fetchUserProfile_failure_changes_nothing_witness :
  let w := freshWorld (aliceStore (aliceProfile 10 [:: "First Report"%string] 1))
             [:: false] in
  (fetchUserProfile alice w).1 = Throw (RemoteError (GetProfile "alice"))
  /\ userProfile (app (fetchUserProfile alice w).2) = zeroProfile.
Proof.
move=> w.
have [hr ha _ _] :=
  @fetchUserProfile_failure_changes_nothing w alice (erefl _).
by split; [exact: hr | rewrite ha].
Defined.

(** Alice upvotes [i1], which has 3 upvotes. *)
Lemma upvote_adds_one_witness :
  let w := aliceSession true (aliceProfile 0 [::] 0) [::] in
  let w' := (handleUpvote "i1" w).2 in
  omap upvotes (lookup "i1" (issueDocs (remote w'))) = Some (Some 4%Z)
  /\ omap title (lookup "i1" (issueDocs (remote w')))
     = Some (Some "Pothole"%string).
Proof.
move=> w w'.
have [_ hl _ _ _] :=
  @upvote_adds_one w alice "i1" (reportData 3 100) (erefl _) (erefl _) (erefl _).
by split; rewrite /w' hl.
Defined.

(** Three upvotes of [i1]. *)
Lemma upvotes_accumulate_witness :
  let w := aliceSession true (aliceProfile 0 [::] 0) [::] in
  exists d' : Issue,
    lookup "i1" (issueDocs (remote (play (nseq 3 (handleUpvote "i1")) w)))
      = Some d'
    /\ upvotesKey d' = 6%Z.
Proof.
move=> w.
have [d' [hl hk]] :=
  @upvotes_accumulate 3 w alice "i1" (reportData 3 100)
    (erefl _) (erefl _) (erefl _).
by exists d'; split; [exact: hl | rewrite hk].
Defined.

(** An upvote of a document that does not exist. *)
Lemma upvote_failure_is_silent_witness :
  let w := aliceSession true (aliceProfile 0 [::] 0) [::] in
  remote (handleUpvote "nowhere" w).2 = remote w
  /\ error (app (handleUpvote "nowhere" w).2) = None.
Proof.
move=> w.
have [_ ha hr] := upvote_failure_is_silent w "nowhere".
by split; [exact: (hr (erefl _)) | rewrite ha].
Defined.

(** A submit before anybody has signed in. *)
Lemma addIssue_requires_identity_witness :
  let w' := (addIssue tamperedDraft signedOutWorld).2 in
  error (app w') = Some "You must be signed in."%string
  /\ remote w' = remote signedOutWorld.
Proof.
move=> w'.
have [he hr _ _ _] :=
  @addIssue_requires_identity signedOutWorld tamperedDraft (erefl _).
by split; [exact: he | exact: hr].
Defined.

(** Alice's submit when the write of the issue fails. *)
Lemma addIssue_write_failure_witness :
  let w := aliceSession true (aliceProfile 0 [::] 0) [:: false] in
  let w' := (addIssue tamperedDraft w).2 in
  remote w' = remote w /\ error (app w') = Some submitFailed.
Proof.
move=> w w'.
have [_ hr he _ _] :=
  @addIssue_write_failure w alice tamperedDraft (erefl _) (erefl _).
by split; [exact: hr | exact: he].
Defined.

(** Alice's submit when the profile update fails. *)
Lemma addIssue_profile_failure_witness :
  let w := aliceSession true (aliceProfile 0 [::] 0) [:: true; false] in
  let w' := (addIssue tamperedDraft w).2 in
  [seq d.1 | d <- issueDocs (remote w')] = [:: "i2"; "i1"; "i3"]%string
  /\ profileDocs (remote w') = profileDocs (remote w).
Proof.
move=> w w'.
have [_ hi hp _ _] :=
  @addIssue_profile_failure w alice tamperedDraft
    (erefl _) (erefl _) (erefl _).
by split; [rewrite hi | exact: hp].
Defined.

(** Alice's submit when both writes succeed. *)
Lemma addIssue_success_witness :
  let w := aliceSession true (aliceProfile 0 [::] 0) [::] in
  let w' := (addIssue tamperedDraft w).2 in
  showForm (app w') = false /\ issues (app w') = issues (app w).
Proof.
move=> w w'.
have [_ [hs _] _ hi _] :=
  @addIssue_success w alice tamperedDraft (erefl _) (erefl _) (erefl _).
by split; [exact: hs | exact: hi].
Defined.

(** Alice deletes [i1]. *)
Lemma optimistic_delete_matches_snapshot_witness :
  let w := aliceSession true (aliceProfile 20 [:: "First Report"%string] 2) [::] in
  let w' := (handleDelete (Some "i1"%string) w).2 in
  issues (app w') = feedView (issueDocs (remote w'))
  /\ [seq id r | r <- issues (app w')] = [:: Some "i2"%string].
Proof.
move=> w w'.
have [hv _ _ _] :=
  @optimistic_delete_matches_snapshot w alice "i1"
    (erefl _) (erefl _) (erefl _) (erefl _) (erefl _) (erefl _) (erefl _).
by split; [exact: hv | reflexivity].
Defined.

(** Alice submits a report and deletes it again. *)
Lemma submit_then_delete_witness :
  let p := aliceProfile 20 [::] 2 in
  let w := aliceSession true p [::] in
  let w1 := (deliverSnapshot (addIssue tamperedDraft w).2).2 in
  let w2 := (handleDelete (Some "i3"%string) w1).2 in
  issueDocs (remote w2) = issueDocs (remote w)
  /\ exists p' : Profile,
       [/\ lookup "alice" (profileDocs (remote w2)) = Some p',
           points p' = Some 20%Z, reportedIssues p' = Some 2%Z
         & badges p' = Some [:: "First Report"%string]].
Proof.
move=> p w w1 w2.
have [_ hd _ [p' [hl hp hr hb]]] :=
  @submit_then_delete w alice p tamperedDraft
    (erefl _) (erefl _) (erefl _) (erefl _) (erefl _) (erefl _).
split; first exact: hd.
by exists p'; split; [exact: hl | rewrite hp | rewrite hr | rewrite hb].
Defined.

(** A profile with one badge that reaches its fifth report. *)
Lemma newBadges_appends_missing_witness :
  let p := aliceProfile 40 [:: "First Report"%string] 4 in
  newBadges p = [:: "First Report"%string; "Neighborhood Hero"%string]
  /\ uniq (newBadges p).
Proof.
move=> p.
have [he hu _] := newBadges_appends_missing p.
by split; [rewrite he | exact: (hu (erefl _))].
Defined.

(** A session of Alice in which the second remote call fails. *)
Lemma session_keeps_badges_witness :
  let w := aliceSession true (aliceProfile 10 [:: "First Report"%string] 1)
             [:: true; false; true; true] in
  let w' := session_run [:: Submit tamperedDraft; Delete (Some "i1"%string);
                            Upvote "i2"; Snapshot; Submit tamperedDraft] w in
  {subset [:: "First Report"%string] <= storedBadges "alice" (remote w')}.
Proof.
move=> w w' b; rewrite inE => /eqP ->.
have [h _] :=
  @session_keeps_badges
    [:: Submit tamperedDraft; Delete (Some "i1"%string);
        Upvote "i2"; Snapshot; Submit tamperedDraft]
    w alice (erefl _) (fun b hb => hb).
exact: (h "First Report"%string (erefl _)).
Defined.

(** Alice submits the filled-in form. *)
Lemma accepted_form_is_stored_witness :
  let w := aliceSession true (aliceProfile 0 [::] 0) [::] in
  let w' := (handleSubmit filledForm w).2 in
  (handleSubmit filledForm w).1 = Val filledForm
  /\ [seq (d.1, title d.2, videoUrl d.2) | d <- drop 2 (issueDocs (remote w'))]
     = [:: ("i3"%string, Some "Pothole"%string,
            Some "data:video/webm;base64,AAAA"%string)].
Proof.
move=> w w'.
have [hv _ _] :=
  @accepted_form_is_stored filledForm w alice
    (erefl _) (erefl _) (erefl _) (erefl _).
by split; [exact: hv | reflexivity].
Defined.

(** Alice signs in over a stale local state. *)
Lemma sign_in_rebuilds_local_state_witness :
  let p := aliceProfile 50 [:: "First Report"%string] 5 in
  let w := play [:: onAuthStateChanged (Some alice); fetchUserProfile alice;
                    deliverSnapshot]
             (aliceSession false p [::]) in
  userProfile (app w) = p
  /\ [seq id r | r <- issues (app w)] = [:: Some "i1"%string; Some "i2"%string].
Proof.
move=> p w.
have [_ _ hl hv _] :=
  @sign_in_rebuilds_local_state (aliceSession false p [::]) alice
    (erefl _) (fun _ => erefl _).
by split; [apply: Some_inj; rewrite -hl | rewrite hv].
Defined.
